(** * SS58 address decoding: [src/tools/ss58_to_pub32.py]

    A shallow embedding of [ss58_to_pub32] together with the pieces of the
    Python runtime and of the two libraries it calls ([base58.b58decode] and
    [hashlib.blake2b]), followed by the properties of the decoder. *)

From Stdlib Require Import NArith String Ascii Strings.Byte Bool Arith Lia List.
Import ListNotations.

(** ** Python runtime: exceptions, slices, [bytes], [str], [int] *)

Module Py.

Definition bytes := list byte.

(** A [str] is a [string] whose characters stand for the code points 0 to
    255; a [bytes] object is a list of bytes. *)

(** The exceptions raised by the operations below.  The two [ValueError]s
    are told apart by their message; [UnicodeEncodeError] is a subclass of
    [ValueError] in Python, [OverflowError] and [IndexError] are not. *)
Inductive exn : Type :=
| ValueError_InvalidCharacter (c : byte)  (* base58: ValueError("Invalid character ...") *)
| UnicodeEncodeError (position : nat)     (* str.encode('ascii') *)
| OverflowError                           (* int.to_bytes: int too big to convert *)
| IndexError                              (* data[0] on an empty bytes object *)
| ValueError_InvalidSS58Checksum.         (* ValueError("Invalid SS58 checksum") *)

(** [except ValueError] catches these. *)
Definition isinstance_ValueError (e : exn) : bool :=
  match e with
  | ValueError_InvalidCharacter _ | UnicodeEncodeError _
  | ValueError_InvalidSS58Checksum => true
  | OverflowError | IndexError => false
  end.

Definition result (A : Type) : Type := (exn + A)%type.
Definition ret {A} (a : A) : result A := inr a.
Definition raise {A} (e : exn) : result A := inl e.
Definition bind {A B} (m : result A) (k : A -> result B) : result B :=
  match m with
  | inl e => inl e
  | inr a => k a
  end.

(** [l[i:j]] for literal bounds [0 <= i <= j]: out-of-range bounds are
    clamped, never an error. *)
Definition slice {A} (i j : nat) (l : list A) : list A :=
  firstn (j - i) (skipn i l).

(** [l[i]] for a literal [i >= 0]. *)
Definition getitem {A} (l : list A) (i : nat) : result A :=
  match nth_error l i with
  | Some x => ret x
  | None => raise IndexError
  end.

(** [l.rstrip()] / [l.lstrip(chars)] over a predicate for the stripped set. *)
Fixpoint rstrip {A} (strip : A -> bool) (l : list A) : list A :=
  match l with
  | [] => []
  | c :: l' =>
      match rstrip strip l' with
      | [] => if strip c then [] else [c]
      | r => c :: r
      end
  end.

Fixpoint lstrip {A} (strip : A -> bool) (l : list A) : list A :=
  match l with
  | [] => []
  | c :: l' => if strip c then lstrip strip l' else l
  end.

(** [str.isspace] on one character, for the code points below 256:
    TAB..CR, FS..US, SPACE, NEL and NBSP. *)
Definition str_isspace (c : ascii) : bool :=
  let n := N_of_ascii c in
  ((9 <=? n) && (n <=? 13) || (28 <=? n) && (n <=? 32)
   || (n =? 133) || (n =? 160))%N.

(** [bytes.isspace] on one byte: [b' \t\n\r\x0b\f']. *)
Definition bytes_isspace (b : byte) : bool :=
  let n := Byte.to_N b in
  ((9 <=? n) && (n <=? 13) || (n =? 32))%N.

(** [s.encode('ascii')]: fails at the first code point above 127. *)
Fixpoint encode_ascii_from (pos : nat) (s : list ascii) : result bytes :=
  match s with
  | [] => ret []
  | c :: s' =>
      if (N_of_ascii c <? 128)%N
      then bind (encode_ascii_from (S pos) s') (fun r => ret (byte_of_ascii c :: r))
      else raise (UnicodeEncodeError pos)
  end.
Definition encode_ascii (s : list ascii) : result bytes := encode_ascii_from 0 s.

(** [int.from_bytes(b, 'big')]. *)
Definition int_from_bytes (b : bytes) : N :=
  fold_left (fun acc x => (acc * 256 + Byte.to_N x)%N) b 0%N.

(** [n.bit_length()]. *)
Definition bit_length (n : N) : N := N.size n.

Definition byte_of_N (n : N) : byte :=
  match Byte.of_N (n mod 256) with
  | Some b => b
  | None => x00
  end.

(** The [len] low-order bytes of [n], least significant first. *)
Fixpoint le_bytes (len : nat) (n : N) : bytes :=
  match len with
  | O => []
  | S len' => byte_of_N n :: le_bytes len' (n / 256)
  end.

(** [n.to_bytes(len, 'big')]: raises OverflowError when [n] does not fit
    in [len] bytes. *)
Definition int_to_bytes (n : N) (len : nat) : result bytes :=
  if (n <? 256 ^ N.of_nat len)%N
  then ret (rev (le_bytes len n))
  else raise OverflowError.

(** [bytes.hex()]: two lowercase hexadecimal digits per byte. *)
Definition hex_digit (n : N) : ascii :=
  if (n <? 10)%N then ascii_of_N (48 + n) else ascii_of_N (87 + n).

Fixpoint hex (b : bytes) : string :=
  match b with
  | [] => EmptyString
  | x :: b' =>
      String (hex_digit (Byte.to_N x / 16))
        (String (hex_digit (Byte.to_N x mod 16)) (hex b'))
  end.

Fixpoint bytes_eqb (a b : bytes) : bool :=
  match a, b with
  | [], [] => true
  | x :: a', y :: b' => Byte.eqb x y && bytes_eqb a' b'
  | _, _ => false
  end.

End Py.

Notation "x <- m ;; k" := (Py.bind m (fun x => k))
  (at level 61, m at next level, right associativity).

(** ** The [base58] package: [b58decode] and [b58encode] *)

(** [b58decode] and [b58encode] with their defaults
    ([alphabet=BITCOIN_ALPHABET], [autofix=False]); [b58decode] is called on
    a [str], which it strips on the right and encodes to ASCII first. *)

Module Base58.
Import Py.

Definition BITCOIN_ALPHABET : bytes :=
  list_byte_of_string "123456789ABCDEFGHJKLMNPQRSTUVWXYZabcdefghijkmnopqrstuvwxyz".

(** [invmap = {char: index for index, char in enumerate(alphabet)}], kept
    as an association list; no symbol occurs twice in the alphabet, so the
    first match of [map_get] is the only one. *)
Fixpoint enumerate_from (i : N) (alphabet : bytes) : list (byte * N) :=
  match alphabet with
  | [] => []
  | c :: rest => (c, i) :: enumerate_from (N.succ i) rest
  end.

Definition _get_base58_decode_map (alphabet : bytes) : list (byte * N) :=
  enumerate_from 0 alphabet.

Fixpoint map_get (m : list (byte * N)) (c : byte) : option N :=
  match m with
  | [] => None
  | (k, v) :: m' => if Byte.eqb k c then Some v else map_get m' c
  end.

(** The loop [for char in v: decimal = decimal * base + map[char]], where a
    [KeyError] becomes [ValueError("Invalid character ...")]. *)
Fixpoint decode_loop (m : list (byte * N)) (base decimal : N) (v : bytes)
  : result N :=
  match v with
  | [] => ret decimal
  | char :: v' =>
      match map_get m char with
      | Some d => decode_loop m base (decimal * base + d)%N v'
      | None => raise (ValueError_InvalidCharacter char)
      end
  end.

Definition b58decode_int (v : bytes) : result N :=
  let v := rstrip bytes_isspace v in
  let map := _get_base58_decode_map BITCOIN_ALPHABET in
  let base := N.of_nat (length BITCOIN_ALPHABET) in
  decode_loop map base 0%N v.

Definition is_first_symbol (c : byte) : bool :=
  match BITCOIN_ALPHABET with
  | z :: _ => Byte.eqb c z
  | [] => false
  end.

Definition b58decode (v : string) : result bytes :=
  let v := rstrip str_isspace (list_ascii_of_string v) in
  v <- encode_ascii v ;;
  let origlen := length v in
  let v := lstrip is_first_symbol v in
  let newlen := length v in
  acc <- b58decode_int v ;;
  int_to_bytes acc (origlen - newlen + N.to_nat ((bit_length acc + 7) / 8)).

(** [while i: i, idx = divmod(i, base); string = alphabet[idx:idx+1] + string]
    with [base = len(alphabet) = 58].  Each turn divides [i] by 58, so
    [fuel] turns suffice as soon as [i < 2 ^ fuel]. *)
Fixpoint encode_loop (fuel : nat) (i : N) (acc : bytes) : bytes :=
  match fuel with
  | O => acc
  | S fuel' =>
      if (i =? 0)%N then acc
      else encode_loop fuel' (i / 58)
             (slice (N.to_nat (i mod 58)) (N.to_nat (i mod 58) + 1) BITCOIN_ALPHABET
                ++ acc)
  end.

(** [b58encode_int(i, default_one=False)] *)
Definition b58encode_int (i : N) : bytes :=
  encode_loop (N.to_nat (N.size i)) i [].

Definition is_zero_byte (b : byte) : bool := Byte.eqb b x00.

Definition b58encode (v : bytes) : bytes :=
  let origlen := length v in
  let v := lstrip is_zero_byte v in
  let newlen := length v in
  let acc := int_from_bytes v in
  let result := b58encode_int acc in
  repeat (nth 0 BITCOIN_ALPHABET x00) (origlen - newlen) ++ result.

End Base58.

(** ** [hashlib.blake2b]: unkeyed BLAKE2b (RFC 7693) *)

Module Blake2b.
Import Py.
Local Open Scope N_scope.

Definition mask64 : N := 0xFFFFFFFFFFFFFFFF.
Definition add64 (a b : N) : N := N.land (a + b) mask64.
Definition rotr64 (x : N) (n : N) : N :=
  N.lor (N.shiftr x n) (N.land (N.shiftl x (64 - n)) mask64).

Definition IV : list N :=
  [ 0x6A09E667F3BCC908; 0xBB67AE8584CAA73B; 0x3C6EF372FE94F82B;
    0xA54FF53A5F1D36F1; 0x510E527FADE682D1; 0x9B05688C2B3E6C1F;
    0x1F83D9ABFB41BD6B; 0x5BE0CD19137E2179 ].

Definition SIGMA : list (list nat) :=
  [ [ 0; 1; 2; 3; 4; 5; 6; 7; 8; 9; 10; 11; 12; 13; 14; 15];
    [14; 10; 4; 8; 9; 15; 13; 6; 1; 12; 0; 2; 11; 7; 5; 3];
    [11; 8; 12; 0; 5; 2; 15; 13; 10; 14; 3; 6; 7; 1; 9; 4];
    [ 7; 9; 3; 1; 13; 12; 11; 14; 2; 6; 5; 10; 4; 0; 15; 8];
    [ 9; 0; 5; 7; 2; 4; 10; 15; 14; 1; 11; 12; 6; 8; 3; 13];
    [ 2; 12; 6; 10; 0; 11; 8; 3; 4; 13; 7; 5; 15; 14; 1; 9];
    [12; 5; 1; 15; 14; 13; 4; 10; 0; 7; 6; 3; 9; 2; 8; 11];
    [13; 11; 7; 14; 12; 1; 3; 9; 5; 0; 15; 4; 8; 6; 2; 10];
    [ 6; 15; 14; 9; 11; 3; 0; 8; 12; 2; 13; 7; 1; 4; 10; 5];
    [10; 2; 8; 4; 7; 6; 1; 5; 15; 11; 9; 14; 3; 12; 13; 0] ]%nat.

Definition word (v : list N) (i : nat) : N := nth i v 0.

Fixpoint set_word (v : list N) (i : nat) (x : N) : list N :=
  match v, i with
  | [], _ => []
  | _ :: v', O => x :: v'
  | y :: v', S i' => y :: set_word v' i' x
  end.

(** The mixing function G on the work vector. *)
Definition G (v : list N) (a b c d : nat) (x y : N) : list N :=
  let v := set_word v a (add64 (add64 (word v a) (word v b)) x) in
  let v := set_word v d (rotr64 (N.lxor (word v d) (word v a)) 32) in
  let v := set_word v c (add64 (word v c) (word v d)) in
  let v := set_word v b (rotr64 (N.lxor (word v b) (word v c)) 24) in
  let v := set_word v a (add64 (add64 (word v a) (word v b)) y) in
  let v := set_word v d (rotr64 (N.lxor (word v d) (word v a)) 16) in
  let v := set_word v c (add64 (word v c) (word v d)) in
  set_word v b (rotr64 (N.lxor (word v b) (word v c)) 63).

Definition round (m : list N) (v : list N) (r : nat) : list N :=
  let s := nth (r mod 10) SIGMA [] in
  let mw (k : nat) := word m (nth k s O) in
  let v := G v 0 4 8 12 (mw 0%nat) (mw 1%nat) in
  let v := G v 1 5 9 13 (mw 2%nat) (mw 3%nat) in
  let v := G v 2 6 10 14 (mw 4%nat) (mw 5%nat) in
  let v := G v 3 7 11 15 (mw 6%nat) (mw 7%nat) in
  let v := G v 0 5 10 15 (mw 8%nat) (mw 9%nat) in
  let v := G v 1 6 11 12 (mw 10%nat) (mw 11%nat) in
  let v := G v 2 7 8 13 (mw 12%nat) (mw 13%nat) in
  G v 3 4 9 14 (mw 14%nat) (mw 15%nat).

(** The compression function F: state [h], message words [m], byte
    counter [t], last-block flag [f]. *)
Definition F (h m : list N) (t : N) (f : bool) : list N :=
  let v := firstn 8 h ++ IV in
  let v := set_word v 12 (N.lxor (word v 12) (N.land t mask64)) in
  let v := set_word v 13 (N.lxor (word v 13) (N.shiftr t 64)) in
  let v := if f then set_word v 14 (N.lxor (word v 14) mask64) else v in
  let v := fold_left (round m) (seq 0 12) v in
  map (fun i => N.lxor (N.lxor (word h i) (word v i)) (word v (i + 8)))
    (seq 0 8).

(** Little-endian 64-bit words of a block, the block padded with zeros. *)
Definition le_word (b : bytes) : N :=
  fold_right (fun x acc => Byte.to_N x + 256 * acc) 0 b.

Definition block_words (block : bytes) : list N :=
  map (fun i => le_word (slice (8 * i) (8 * i + 8) block)) (seq 0 16).

(** Cut the input into 128-byte blocks; the last block is the only one
    that may be short, and it is empty only for the empty input. *)
Fixpoint blocks_from (cur : bytes) (data : bytes) : list bytes :=
  match data with
  | [] => [cur]
  | x :: data' =>
      if (length cur <? 128)%nat then blocks_from (cur ++ [x]) data'
      else cur :: blocks_from [x] data'
  end.

Fixpoint absorb (h : list N) (t : N) (blocks : list bytes) : list N :=
  match blocks with
  | [] => h
  | [last] => F h (block_words last) (t + N.of_nat (length last)) true
  | block :: rest =>
      absorb (F h (block_words block) (t + 128) false) (t + 128) rest
  end.

(** [hashlib.blake2b(data, digest_size=nn).digest()] for [1 <= nn <= 64]. *)
Definition blake2b (data : bytes) (digest_size : nat) : bytes :=
  let h0 := set_word IV 0
              (N.lxor (word IV 0) (N.lxor 0x01010000 (N.of_nat digest_size))) in
  let h := absorb h0 0 (blocks_from [] data) in
  firstn digest_size (flat_map (le_bytes 8) h).

End Blake2b.

(** ** [src/tools/ss58_to_pub32.py] *)

Module SS58.
Import Py.

(** The function returns [str] when [as_hex] holds and [bytes] otherwise. *)
Inductive value : Type :=
| Str (s : string)
| Bytes (b : bytes).

Definition SS58PRE : bytes := list_byte_of_string "SS58PRE".

(** The three local variables assigned on lines 21-28. *)
Record fields : Type :=
  { prefix : bytes; pubkey : bytes; checksum : bytes }.

(** Lines 20-28: determine the prefix length and extract the fields. *)
Definition extract (data : bytes) : result fields :=
  first <- getitem data 0 ;;
  if (Byte.to_N first <? 64)%N
  then ret {| prefix := slice 0 1 data;
              pubkey := slice 1 33 data;
              checksum := slice 33 35 data |}
  else ret {| prefix := slice 0 2 data;
              pubkey := slice 2 34 data;
              checksum := slice 34 36 data |}.

(** Line 31 and the right-hand side of line 32: [h[:2]]. *)
Definition recomputed (f : fields) : bytes :=
  let h := Blake2b.blake2b (SS58PRE ++ prefix f ++ pubkey f) 64 in
  slice 0 2 h.

(** Lines 20-38: everything after the Base58 decoding. *)
Definition convert (data : bytes) (as_hex : bool) : result value :=
  f <- extract data ;;
  if negb (bytes_eqb (checksum f) (recomputed f))
  then raise ValueError_InvalidSS58Checksum
  else if as_hex
       then ret (Str ("0x" ++ hex (pubkey f)))
       else ret (Bytes (pubkey f)).

Definition ss58_to_pub32 (ss58_address : string) (as_hex : bool)
  : result value :=
  data <- Base58.b58decode ss58_address ;;
  convert data as_hex.

End SS58.

(** ** The spec's vocabulary for the codec *)

Module Codec.
Import Py SS58.

(** The spec names three failures of [decode]; the code raises Python
    exceptions.  [DecodeError] stands for what [base58.b58decode] raises
    and [ChecksumMismatchError] for [ValueError("Invalid SS58 checksum")];
    nothing in the code corresponds to [MalformedAddressError], and the
    spec has no name for [IndexError] or [OverflowError]. *)
Inductive failure : Type :=
| DecodeError
| MalformedAddressError
| ChecksumMismatchError.

Definition failure_of (e : exn) : option failure :=
  match e with
  | ValueError_InvalidCharacter _ | UnicodeEncodeError _ => Some DecodeError
  | ValueError_InvalidSS58Checksum => Some ChecksumMismatchError
  | OverflowError | IndexError => None
  end.

Definition fails_with {A} (r : result A) (k : failure) : Prop :=
  exists e, r = raise e /\ failure_of e = Some k.

(** The spec's [decode(address, output_as_hex)] is [ss58_to_pub32]. *)
Definition decode : string -> bool -> result value := ss58_to_pub32.

(** The minimum length the spec requires of the decoded buffer in the
    branch selected by its first byte. *)
Definition required_length (data : bytes) : nat :=
  match data with
  | first :: _ => if (Byte.to_N first <? 64)%N then 35 else 36
  | [] => 35
  end.

(** The two layouts of step 2 of the spec's algorithm, in its words:
    "prefix is 1 byte ([data[0:1]]), public key is [data[1:33]], checksum
    is [data[33:35]]" and "prefix is 2 bytes ([data[0:2]]), public key is
    [data[2:34]], checksum is [data[34:36]]". *)
Definition narrow_layout (data : bytes) : fields :=
  {| prefix := slice 0 1 data;
     pubkey := slice 1 33 data;
     checksum := slice 33 35 data |}.

Definition wide_layout (data : bytes) : fields :=
  {| prefix := slice 0 2 data;
     pubkey := slice 2 34 data;
     checksum := slice 34 36 data |}.

Definition in_alphabet (c : byte) : bool :=
  match Base58.map_get (Base58._get_base58_decode_map Base58.BITCOIN_ALPHABET) c with
  | Some _ => true
  | None => false
  end.

(** The same test on a character of a [str]. *)
Definition char_in_alphabet (c : ascii) : bool :=
  existsb (fun b => Ascii.eqb c (ascii_of_byte b)) Base58.BITCOIN_ALPHABET.



(** The prefixes whose width agrees with the width the decoder infers from
    the first byte: one byte below 64, or two bytes the first of which is 64
    or more. *)
Definition selects_own_width (prefix : bytes) : Prop :=
  match prefix with
  | [first] => (Byte.to_N first < 64)%N
  | [first; _] => (64 <= Byte.to_N first)%N
  | _ => False
  end.

Inductive encode_failure : Type := InvalidInputError.

(** Modelled from the spec: the [encode] operation, which the repository
    does not implement ("not present in the reference behavior").  It
    concatenates [prefix || public_key], appends the first 2 bytes of the
    BLAKE2b-512 hash of ["SS58PRE" || prefix || public_key] and
    Base58-encodes the buffer; it fails with [InvalidInputError] unless
    [public_key] has 32 bytes and [prefix] has 1 or 2. *)
Definition encode (public_key prefix : bytes) : encode_failure + string :=
  if (length public_key =? 32) && ((length prefix =? 1) || (length prefix =? 2))
  then
    let check := firstn 2 (Blake2b.blake2b (SS58PRE ++ prefix ++ public_key) 64) in
    inr (string_of_list_byte (Base58.b58encode (prefix ++ public_key ++ check)))
  else inl InvalidInputError.

End Codec.

(** ** The one piece of mutable state a call can reach

    [base58] memoises the inverse alphabet table of [_get_base58_decode_map]
    with [functools.lru_cache]; the cache outlives the call.  Here the call
    is written in state-passing style over that cache. *)

Module Stateful.
Import Py SS58.

(** The cache entry for [(BITCOIN_ALPHABET, autofix=False)]. *)
Definition cache : Type := option (list (byte * N)).

Definition _get_base58_decode_map (c : cache) : list (byte * N) * cache :=
  match c with
  | Some m => (m, c)
  | None =>
      let m := Base58._get_base58_decode_map Base58.BITCOIN_ALPHABET in
      (m, Some m)
  end.

Definition b58decode_int (v : bytes) (c : cache) : result N * cache :=
  let v := rstrip bytes_isspace v in
  let '(map, c) := _get_base58_decode_map c in
  let base := N.of_nat (length Base58.BITCOIN_ALPHABET) in
  (Base58.decode_loop map base 0%N v, c).

Definition b58decode (v : string) (c : cache) : result bytes * cache :=
  let v := rstrip str_isspace (list_ascii_of_string v) in
  match encode_ascii v with
  | inl e => (inl e, c)
  | inr v =>
      let origlen := length v in
      let v := lstrip Base58.is_first_symbol v in
      let newlen := length v in
      let '(r, c) := b58decode_int v c in
      (acc <- r ;;
       int_to_bytes acc (origlen - newlen + N.to_nat ((bit_length acc + 7) / 8)),
       c)
  end.

Definition ss58_to_pub32 (ss58_address : string) (as_hex : bool) (c : cache)
  : result value * cache :=
  let '(r, c) := b58decode ss58_address c in
  (data <- r ;; convert data as_hex, c).

(** The states the cache can be in: cold, or holding the table. *)
Definition reachable (c : cache) : Prop :=
  c = None \/ c = Some (Base58._get_base58_decode_map Base58.BITCOIN_ALPHABET).

End Stateful.

(** ** The address of [src/tools/32.py] *)

Module Known.
Import Py.

(** [ss58 = "5ETsYe7MLH6Mf9xAMgrLhYL2K1fQXBzn7g7bFHXRgFP3FZvT"] *)
Definition ss58 : string := "5ETsYe7MLH6Mf9xAMgrLhYL2K1fQXBzn7g7bFHXRgFP3FZvT".

(** The 32 bytes it carries behind the network prefix 42. *)
Definition pub32 : bytes :=
  [
    x6a; x23; xba; x55; x1f; x3d; x2e; x34;
    x2e; x9c; x4d; x03; x09; x8f; xae; x3b;
    x01; x85; xb8; x31; xb5; x0a; xc7; x1c;
    xe4; xb4; x96; xb1; x69; x4a; xbb; x56 ].

Definition pub32_hex : string :=
  "0x6a23ba551f3d2e342e9c4d03098fae3b0185b831b50ac71ce4b496b1694abb56".
End Known.

(** ** Hotkey arguments: [src/tools/stake.py] and [src/tools/register_neuron.py] *)

Module Hotkey.
Import Py.

(** What the two conversions raise.  [bytes.fromhex] raises a [ValueError]
    whose message (the position of the offending character) is not kept. *)
Inductive exn : Type :=
| ValueError_fromhex                  (* bytes.fromhex: ValueError("non-hexadecimal number found ...") *)
| ValueError_HotkeyLength (got : nat) (* register_neuron.py: ValueError("Hotkey must be 32 bytes, got ...") *)
| SystemExit_HotkeyLength.            (* stake.py: SystemExit("Hotkey must be 32 bytes") *)

Definition result (A : Type) : Type := (exn + A)%type.

(** [str.lower] on one code point below 256: A-Z and the Latin-1 capitals
    (192-222 but for the multiplication sign 215) move up by 32. *)
Definition str_lower (c : ascii) : ascii :=
  let n := N_of_ascii c in
  if ((65 <=? n) && (n <=? 90)
      || (192 <=? n) && (n <=? 222) && negb (n =? 215))%N
  then ascii_of_N (n + 32)
  else c.

(** [s.startswith(prefix)] *)
Fixpoint startswith (prefix s : list ascii) : bool :=
  match prefix, s with
  | [], _ => true
  | p :: prefix', c :: s' => Ascii.eqb p c && startswith prefix' s'
  | _ :: _, [] => false
  end.

(** [s.removeprefix(prefix)] *)
Definition removeprefix (prefix s : list ascii) : list ascii :=
  if startswith prefix s then skipn (length prefix) s else s.

(** The value of a hexadecimal digit, in either case. *)
Definition hex_value (c : ascii) : option N :=
  let n := N_of_ascii c in
  if ((48 <=? n) && (n <=? 57))%N then Some (n - 48)%N
  else if ((97 <=? n) && (n <=? 102))%N then Some (n - 87)%N
  else if ((65 <=? n) && (n <=? 70))%N then Some (n - 55)%N
  else None.

(** The ASCII whitespace [bytes.fromhex] skips between two bytes. *)
Definition hex_isspace (c : ascii) : bool :=
  let n := N_of_ascii c in
  ((9 <=? n) && (n <=? 13) || (n =? 32))%N.

(** The loop of [bytes.fromhex]: skip whitespace, then read two digits that
    must follow each other directly. *)
Fixpoint fromhex_pairs (s : list ascii) : result bytes :=
  match s with
  | [] => inr []
  | c :: s' =>
      if hex_isspace c then fromhex_pairs s'
      else
        match hex_value c, s' with
        | Some top, d :: s'' =>
            match hex_value d with
            | Some bot =>
                match fromhex_pairs s'' with
                | inr rest => inr (byte_of_N (16 * top + bot) :: rest)
                | inl e => inl e
                end
            | None => inl ValueError_fromhex
            end
        | _, _ => inl ValueError_fromhex
        end
  end.

(** [bytes.fromhex(s)]: a [str] with a non-ASCII character is rejected
    before the loop starts. *)
Definition fromhex (s : list ascii) : result bytes :=
  if forallb (fun c => (N_of_ascii c <? 128)%N) s
  then fromhex_pairs s
  else inl ValueError_fromhex.

(** [stake.py], lines 25-27:
    [bytes.fromhex(args.hotkey_bytes32.lower().removeprefix("0x"))], then
    the length test. *)
Definition stake_hotkey_bytes (hotkey_bytes32 : string) : result bytes :=
  match fromhex (removeprefix (list_ascii_of_string "0x")
                   (map str_lower (list_ascii_of_string hotkey_bytes32))) with
  | inl e => inl e
  | inr hotkey_bytes =>
      if negb (length hotkey_bytes =? 32)
      then inl SystemExit_HotkeyLength
      else inr hotkey_bytes
  end.

(** [register_neuron.py], lines 58-64; the [ValueError]s are caught on
    line 74, where the script prints them and exits with status 1. *)
Definition register_hotkey_bytes32 (hotkey : string) : result bytes :=
  let chars := list_ascii_of_string hotkey in
  match (if startswith (list_ascii_of_string "0x") chars
         then fromhex (skipn 2 chars)
         else fromhex chars) with
  | inl e => inl e
  | inr hotkey_bytes32 =>
      if negb (length hotkey_bytes32 =? 32)
      then inl (ValueError_HotkeyLength (length hotkey_bytes32))
      else inr hotkey_bytes32
  end.

End Hotkey.

(** ** The conversion loop of [src/tools/get_all_validators_and_stake.py] *)

Module Batch.
Import Py SS58.

Section Amounts.

(** The numbers of the JSON document and Python's [+] and [0] on them. *)
Variable number : Type.
Variable zero : number.
Variable add : number -> number -> number.

(** One element of a hotkey's list: the value under ["stake_value"], if the
    key is there. *)
Definition entry : Type := option number.

(** [data["stake_info"]]: a dict from hotkey to list of entries, as the list
    of its items in insertion order. *)
Definition stake_info : Type := list (string * list entry).

(** [list(data.get("stake_info", {}).keys())] *)
Definition hotkeys_of (info : stake_info) : list string := map fst info.

(** [data.get("stake_info", {}).get(hk, [])] *)
Definition entries_of (info : stake_info) (hk : string) : list entry :=
  match find (fun item => String.eqb (fst item) hk) info with
  | Some item => snd item
  | None => []
  end.

(** [sum(entry.get("stake_value", 0) for entry in stake_entries)] *)
Definition total_value (stake_entries : list entry) : number :=
  fold_left
    (fun acc e => add acc (match e with Some v => v | None => zero end))
    stake_entries zero.

(** Lines 49-53: [ss58_to_pub32(hk)] under [except ValueError], which
    yields [None]; any other exception leaves the loop.  The message
    printed by the handler is not kept. *)
Definition try_pub32 (hk : string) : Py.result (option value) :=
  match ss58_to_pub32 hk true with
  | inr pub32 => ret (Some pub32)
  | inl e => if isinstance_ValueError e then ret None else raise e
  end.

(** Lines 41-54: the loop over the hotkeys, appending to [amounts] and
    [pub32_list]. *)
Fixpoint loop (info : stake_info) (hotkeys : list string)
  (amounts : list number) (pub32_list : list (option value))
  : Py.result (list number * list (option value)) :=
  match hotkeys with
  | [] => ret (amounts, pub32_list)
  | hk :: rest =>
      let stake_entries := entries_of info hk in
      let total_value := total_value stake_entries in
      let amounts := amounts ++ [total_value] in
      pub32 <- try_pub32 hk ;;
      loop info rest amounts (pub32_list ++ [pub32])
  end.

Definition convert_all (info : stake_info)
  : Py.result (list number * list (option value)) :=
  loop info (hotkeys_of info) [] [].

End Amounts.

Arguments hotkeys_of {number} info.
Arguments entries_of {number} info hk.
Arguments total_value {number} zero add stake_entries.
Arguments loop {number} zero add info hotkeys amounts pub32_list.
Arguments convert_all {number} zero add info.

(** An address with nothing left once its trailing whitespace is gone. *)
Definition blank (address : string) : Prop :=
  rstrip str_isspace (list_ascii_of_string address) = [].

End Batch.

(** * Properties *)

Import Py SS58 Codec.

(** ** Lists, slices and byte strings *)

Section Slices.
Context {A : Type}.
Implicit Types l : list A.

Lemma slice_length i j l :
  length (slice i j l) = Nat.min (j - i) (length l - i).
Proof.
  unfold slice. now rewrite length_firstn, length_skipn.
Qed.

Lemma slice_app_mid (a b c : list A) i j :
  i = length a -> j = length a + length b ->
  slice i j (a ++ b ++ c) = b.
Proof.
  intros -> ->. unfold slice.
  rewrite skipn_app, Nat.sub_diag, skipn_all. simpl.
  replace (length a + length b - length a) with (length b + 0) by lia.
  now rewrite firstn_app_2, firstn_O, app_nil_r.
Qed.

Lemma slice_app_head (a b : list A) j :
  j = length a -> slice 0 j (a ++ b) = a.
Proof.
  intros ->. unfold slice. simpl.
  replace (length a - 0) with (length a + 0) by lia.
  now rewrite firstn_app_2, firstn_O, app_nil_r.
Qed.

Lemma slice_app_within i j l (extra : list A) :
  j <= length l -> slice i j (l ++ extra) = slice i j l.
Proof.
  intros Hj. unfold slice.
  rewrite skipn_app, firstn_app, length_skipn.
  replace (j - i - (length l - i)) with 0 by lia.
  now rewrite firstn_O, app_nil_r.
Qed.
End Slices.

Lemma bytes_eqb_eq (a b : bytes) : bytes_eqb a b = true <-> a = b.
Proof.
  revert b. induction a as [|x a IH]; intros [|y b]; simpl; split;
    try congruence; try reflexivity.
  - intros H. apply andb_true_iff in H as [Hx Hab].
    apply Byte.byte_dec_bl in Hx. apply IH in Hab. congruence.
  - intros H. injection H as -> ->. apply andb_true_iff. split.
    + now apply Byte.byte_dec_lb.
    + now apply IH.
Qed.

Lemma bytes_eqb_neq (a b : bytes) : bytes_eqb a b = false <-> a <> b.
Proof.
  split.
  - intros H E. apply bytes_eqb_eq in E. congruence.
  - intros H. destruct (bytes_eqb a b) eqn:E; [|reflexivity].
    apply bytes_eqb_eq in E. contradiction.
Qed.

(** ** The digest has the requested size *)

Lemma F_length h m t f : length (Blake2b.F h m t f) = 8.
Proof. unfold Blake2b.F. now rewrite length_map, length_seq. Qed.

Lemma set_word_length v i x :
  length (Blake2b.set_word v i x) = length v.
Proof.
  revert i. induction v as [|y v IH]; intros [|i]; simpl; auto.
Qed.

Lemma absorb_length blocks : forall h t,
  length h = 8 -> length (Blake2b.absorb h t blocks) = 8.
Proof.
  induction blocks as [|b rest IH]; intros h t Hh; simpl; [assumption|].
  destruct rest as [|b' rest'].
  - apply F_length.
  - apply IH, F_length.
Qed.

Lemma le_bytes_length len n : length (le_bytes len n) = len.
Proof. revert n. induction len; intros n; simpl; auto. Qed.

Lemma flat_map_le_bytes_length (h : list N) :
  length (flat_map (le_bytes 8) h) = 8 * length h.
Proof.
  induction h as [|x h IH]; [reflexivity|].
  change (flat_map (le_bytes 8) (x :: h))
    with (le_bytes 8 x ++ flat_map (le_bytes 8) h).
  rewrite length_app, le_bytes_length, IH. simpl. lia.
Qed.

Lemma blake2b_length data : length (Blake2b.blake2b data 64) = 64.
Proof.
  unfold Blake2b.blake2b.
  rewrite length_firstn, flat_map_le_bytes_length, absorb_length.
  - reflexivity.
  - now rewrite set_word_length.
Qed.

Lemma recomputed_length f : length (recomputed f) = 2.
Proof.
  unfold recomputed. now rewrite slice_length, blake2b_length.
Qed.

(** The digest of "abc" (RFC 7693, appendix A). *)
Example blake2b_abc :
  hex (Blake2b.blake2b (list_byte_of_string "abc") 64) =
  ("ba80a53f981c4d0d6a2797b69f12f6e94c212f14685ac4b74b12bb6fdbffa2d1" ++
   "7d87c5392aab792dc252d5de4533cc9518d38aa8dbf1925ab92386edd4009923")%string.
Proof. vm_compute. reflexivity. Qed.

(** ** The steps of [ss58_to_pub32] *)

(** The address of [32.py] carries the network prefix 42 and a valid
    checksum. *)
Example known_address :
  Base58.b58decode Known.ss58
  = ret ("*"%byte :: Known.pub32 ++ [xd9; xac]) /\
  decode Known.ss58 true = ret (Str Known.pub32_hex) /\
  decode Known.ss58 false = ret (Bytes Known.pub32).
Proof. repeat split; vm_compute; reflexivity. Qed.

Lemma extract_nil : extract [] = raise IndexError.
Proof. reflexivity. Qed.

Lemma extract_cons first rest :
  extract (first :: rest) =
  ret (if (Byte.to_N first <? 64)%N
       then narrow_layout (first :: rest)
       else wide_layout (first :: rest)).
Proof.
  unfold extract, getitem. simpl nth_error. cbn [bind ret].
  now destruct (Byte.to_N first <? 64)%N.
Qed.

Lemma extract_total_on_nonempty data :
  data <> [] -> exists f, extract data = ret f.
Proof.
  destruct data as [|first rest]; [congruence|]. intros _.
  rewrite extract_cons. eauto.
Qed.

Lemma convert_returns data as_hex v :
  convert data as_hex = ret v <->
  exists f, extract data = ret f /\ checksum f = recomputed f /\
            v = if as_hex then Str ("0x" ++ hex (pubkey f)) else Bytes (pubkey f).
Proof.
  unfold convert. destruct (extract data) as [e|f]; cbn [bind].
  - split; [discriminate|]. intros (f & Hf & _). discriminate.
  - destruct (bytes_eqb (checksum f) (recomputed f)) eqn:E; cbn [negb].
    + apply bytes_eqb_eq in E. split.
      * intros H. exists f. repeat split; auto.
        destruct as_hex; unfold ret in H; congruence.
      * intros (f' & [= <-] & _ & ->). now destruct as_hex.
    + apply bytes_eqb_neq in E. split; [discriminate|].
      intros (f' & [= <-] & Hc & _). contradiction.
Qed.

Lemma convert_raises_checksum data as_hex :
  convert data as_hex = raise ValueError_InvalidSS58Checksum <->
  exists f, extract data = ret f /\ checksum f <> recomputed f.
Proof.
  unfold convert. destruct (extract data) as [e|f] eqn:Hx; cbn [bind].
  - split.
    + intros H. destruct data as [|first rest].
      * rewrite extract_nil in Hx. unfold raise in *. congruence.
      * rewrite extract_cons in Hx. discriminate.
    + intros (f & Hf & _). discriminate.
  - destruct (bytes_eqb (checksum f) (recomputed f)) eqn:E; cbn [negb].
    + apply bytes_eqb_eq in E. split.
      * destruct as_hex; discriminate.
      * intros (f' & [= <-] & Hc). contradiction.
    + apply bytes_eqb_neq in E. split; [|reflexivity].
      intros _. now exists f.
Qed.

Lemma decode_after_b58decode a as_hex data :
  Base58.b58decode a = ret data -> decode a as_hex = convert data as_hex.
Proof. unfold decode, ss58_to_pub32. now intros ->. Qed.

Lemma decode_returns a as_hex v :
  decode a as_hex = ret v ->
  exists data, Base58.b58decode a = ret data /\ convert data as_hex = ret v.
Proof.
  unfold decode, ss58_to_pub32.
  destruct (Base58.b58decode a) as [e|data]; cbn [bind]; [discriminate|].
  intros H. now exists data.
Qed.

(** Facts about the lengths of the extracted fields: split on the buffer
    and on the branch, then count. *)
Ltac by_branch :=
  let first := fresh "first" in
  let rest := fresh "rest" in
  intros data; destruct data as [|first rest]; [discriminate|];
  rewrite extract_cons; intros f [= <-]; unfold required_length;
  destruct (Byte.to_N first <? 64)%N;
  cbn [checksum pubkey prefix narrow_layout wide_layout];
  rewrite ?slice_length; simpl length; lia.

(** A buffer too short for its branch leaves fewer than two bytes in the
    checksum slice. *)
Lemma short_checksum data f :
  extract data = ret f -> length data < required_length data ->
  length (checksum f) < 2.
Proof. revert data f. by_branch. Qed.

Lemma full_checksum data f :
  extract data = ret f -> length (checksum f) = 2 ->
  required_length data <= length data /\ length (pubkey f) = 32 /\
  required_length data = length (prefix f) + 32 + 2.
Proof. revert data f. by_branch. Qed.

(** ** Hexadecimal output *)




(** ** Field extraction *)

(** C2: on a decoded buffer with at least one byte, a first byte below 64
    selects prefix [data[0:1]], public key [data[1:33]] and checksum
    [data[33:35]]; any other first byte selects [data[0:2]], [data[2:34]] and
    [data[34:36]].  The first byte 63 takes the 1-byte branch and 64 the
    2-byte branch. *)
Theorem extract_layout (data : bytes) (first : byte) (rest : bytes) :
  data = first :: rest ->
  ((Byte.to_N first < 64)%N -> extract data = ret (narrow_layout data)) /\
  ((64 <= Byte.to_N first)%N -> extract data = ret (wide_layout data)) /\
  (first = "?"%byte -> extract data = ret (narrow_layout data)) /\
  (first = "@"%byte -> extract data = ret (wide_layout data)).
Proof.
  intros ->. rewrite extract_cons. repeat split.
  - intros H. apply N.ltb_lt in H. now rewrite H.
  - intros H. apply N.ltb_ge in H. now rewrite H.
  - now intros ->.
  - now intros ->.
Qed.

Lemma extract_layout_witness :
  extract ["?"%byte; x01; x02] = ret (narrow_layout ["?"%byte; x01; x02]) /\
  extract ["@"%byte; x01; x02] = ret (wide_layout ["@"%byte; x01; x02]).
Proof.
  split.
  - apply (extract_layout _ "?"%byte [x01; x02] eq_refl). reflexivity.
  - apply (extract_layout _ "@"%byte [x01; x02] eq_refl). reflexivity.
Defined.

(** ** The checksum test *)

(** C1: when the Base58 decoding succeeds, the call raises the checksum
    error exactly when the checksum taken from the buffer is not, byte for
    byte, the first 2 bytes of the 64-byte BLAKE2b digest of
    "SS58PRE" || prefix || public_key, the fields being those of the
    selected branch. *)
Theorem checksum_error_iff (a : string) (as_hex : bool) (data : bytes) :
  Base58.b58decode a = ret data ->
  (fails_with (decode a as_hex) ChecksumMismatchError <->
   exists f, extract data = ret f /\
             checksum f <>
             firstn 2 (Blake2b.blake2b (SS58PRE ++ prefix f ++ pubkey f) 64)).
Proof.
  intros Hd. rewrite (decode_after_b58decode a as_hex data Hd).
  change (fun f => firstn 2 (Blake2b.blake2b (SS58PRE ++ prefix f ++ pubkey f) 64))
    with recomputed.
  rewrite <- (convert_raises_checksum data as_hex). split.
  - intros (e & -> & He). destruct e; try discriminate. reflexivity.
  - intros ->. exists ValueError_InvalidSS58Checksum. now split.
Qed.

Lemma checksum_error_iff_witness :
  fails_with (decode "2" true) ChecksumMismatchError <->
  exists f, extract [x01] = ret f /\
            checksum f <>
            firstn 2 (Blake2b.blake2b (SS58PRE ++ prefix f ++ pubkey f) 64).
Proof. apply (checksum_error_iff "2" true [x01]). reflexivity. Defined.

(** ** Empty and truncated buffers *)

(** C9: when the Base58 decoding yields the empty buffer, [data[0]] is out
    of range: the call raises IndexError, which is none of the three named
    failures, and returns no value. *)
Theorem empty_buffer_index_error (a : string) (as_hex : bool) :
  Base58.b58decode a = ret [] ->
  decode a as_hex = raise IndexError /\
  (forall k, ~ fails_with (decode a as_hex) k) /\
  (forall v, decode a as_hex <> ret v).
Proof.
  intros Hd. rewrite (decode_after_b58decode a as_hex [] Hd).
  assert (H : convert [] as_hex = raise IndexError) by reflexivity.
  rewrite H. repeat split.
  - intros k (e & [= <-] & He). discriminate.
  - discriminate.
Qed.

Lemma empty_buffer_index_error_witness :
  decode "" true = raise IndexError /\
  (forall k, ~ fails_with (decode "" true) k) /\
  (forall v, decode "" true <> ret v).
Proof. apply (empty_buffer_index_error "" true). reflexivity. Defined.

(** C10: when the decoded buffer is non-empty but shorter than 35 bytes
    (1-byte branch) or 36 bytes (2-byte branch), the checksum slice has fewer
    than 2 bytes and the recomputed checksum exactly 2, so the call raises
    the checksum error and returns no key. *)
Theorem truncated_buffer_checksum_error (a : string) (as_hex : bool) (data : bytes) :
  Base58.b58decode a = ret data ->
  data <> [] ->
  length data < required_length data ->
  exists f, extract data = ret f /\
            length (checksum f) < 2 /\
            length (recomputed f) = 2 /\
            decode a as_hex = raise ValueError_InvalidSS58Checksum /\
            (forall v, decode a as_hex <> ret v).
Proof.
  intros Hd Hne Hlen.
  destruct (extract_total_on_nonempty data Hne) as [f Hf].
  pose proof (short_checksum data f Hf Hlen) as Hshort.
  pose proof (recomputed_length f) as Hfull.
  assert (Hraise : decode a as_hex = raise ValueError_InvalidSS58Checksum).
  { rewrite (decode_after_b58decode a as_hex data Hd). apply convert_raises_checksum.
    exists f. split; [assumption|]. intros E. rewrite E in Hshort. lia. }
  exists f. repeat split; auto. rewrite Hraise. discriminate.
Qed.

Lemma truncated_buffer_checksum_error_witness :
  exists f, extract [x01] = ret f /\
            length (checksum f) < 2 /\
            length (recomputed f) = 2 /\
            decode "2" false = raise ValueError_InvalidSS58Checksum /\
            (forall v, decode "2" false <> ret v).
Proof.
  apply (truncated_buffer_checksum_error "2" false [x01]).
  - reflexivity.
  - discriminate.
  - simpl. lia.
Defined.

Lemma clamped_slices data f :
  extract data = ret f -> length data < required_length data ->
  length (prefix f) + length (pubkey f) + length (checksum f) = length data.
Proof. revert data f. by_branch. Qed.

Lemma never_malformed {A} (r : result A) : ~ fails_with r MalformedAddressError.
Proof. intros (e & _ & He). destruct e; discriminate. Qed.

(** C3, as the code has it: there is no length check and no
    MalformedAddressError.  A non-empty buffer shorter than its branch
    requires is sliced all the same, the slices clamped to the buffer, and
    the call then fails with the checksum error. *)
Theorem short_buffer_fails_checksum (a : string) (as_hex : bool) (data : bytes) :
  Base58.b58decode a = ret data ->
  data <> [] ->
  length data < required_length data ->
  fails_with (decode a as_hex) ChecksumMismatchError /\
  ~ fails_with (decode a as_hex) MalformedAddressError /\
  exists f, extract data = ret f /\
            length (prefix f) + length (pubkey f) + length (checksum f)
            = length data.
Proof.
  intros Hd Hne Hlen.
  destruct (extract_total_on_nonempty data Hne) as [f Hf].
  split; [|split].
  - exists ValueError_InvalidSS58Checksum. split; [|reflexivity].
    rewrite (decode_after_b58decode a as_hex data Hd).
    apply convert_raises_checksum. exists f. split; [assumption|].
    intros E. pose proof (short_checksum data f Hf Hlen) as Hs.
    rewrite E, recomputed_length in Hs. lia.
  - apply never_malformed.
  - exists f. split; [assumption|]. now apply clamped_slices.
Qed.

Lemma short_buffer_fails_checksum_witness :
  fails_with (decode "2" true) ChecksumMismatchError /\
  ~ fails_with (decode "2" true) MalformedAddressError /\
  exists f, extract [x01] = ret f /\
            length (prefix f) + length (pubkey f) + length (checksum f)
            = length [x01].
Proof.
  apply (short_buffer_fails_checksum "2" true [x01]).
  - reflexivity.
  - discriminate.
  - simpl. lia.
Defined.

(** C3 as stated fails: the address "2" decodes to the single byte 01, far
    fewer than 35, and the call raises the checksum error, not
    MalformedAddressError. *)
Lemma short_buffer_not_malformed :
  Base58.b58decode "2" = ret [x01] /\
  length [x01] < required_length [x01] /\
  decode "2" true = raise ValueError_InvalidSS58Checksum /\
  ~ fails_with (decode "2" true) MalformedAddressError.
Proof.
  split; [reflexivity|]. split; [simpl; lia|]. split; [reflexivity|].
  apply never_malformed.
Qed.

(** ** Successful calls *)

Lemma convert_ignores_trailing data extra as_hex :
  required_length data <= length data ->
  convert (data ++ extra) as_hex = convert data as_hex.
Proof.
  destruct data as [|first rest]; [simpl; lia|].
  unfold required_length, convert. intros Hlen.
  change ((first :: rest) ++ extra) with (first :: (rest ++ extra)).
  rewrite !extract_cons.
  change (first :: (rest ++ extra)) with ((first :: rest) ++ extra).
  destruct (Byte.to_N first <? 64)%N;
    unfold narrow_layout, wide_layout;
    rewrite !(slice_app_within _ _ (first :: rest) extra) by lia;
    reflexivity.
Qed.

(** C4, as the code has it: on success the decoded buffer has at least
    len(prefix) + 32 + 2 bytes, 35 in the 1-byte branch and 36 in the 2-byte
    branch; bytes beyond those are not looked at, so the same buffer with
    anything appended is accepted too. *)
Theorem accepted_buffer_length (a : string) (as_hex : bool) (v : value) :
  decode a as_hex = ret v ->
  exists data f,
    Base58.b58decode a = ret data /\ extract data = ret f /\
    (length (prefix f) = 1 \/ length (prefix f) = 2) /\
    length (prefix f) + 32 + 2 <= length data /\
    forall extra, convert (data ++ extra) as_hex = ret v.
Proof.
  intros H. destruct (decode_returns a as_hex v H) as (data & Hd & Hc).
  pose proof Hc as Hc'. apply convert_returns in Hc' as (f & Hf & Hsum & _).
  assert (H2 : length (checksum f) = 2) by (rewrite Hsum; apply recomputed_length).
  destruct (full_checksum data f Hf H2) as (Hlen & _ & Hreq).
  exists data, f. repeat split; auto.
  - destruct data as [|first rest]; [discriminate|].
    unfold required_length in Hreq.
    destruct (Byte.to_N first <? 64)%N; lia.
  - lia.
  - intros extra. now rewrite convert_ignores_trailing.
Qed.

Lemma accepted_buffer_length_witness :
  exists data f,
    Base58.b58decode Known.ss58 = ret data /\
    extract data = ret f /\
    (length (prefix f) = 1 \/ length (prefix f) = 2) /\
    length (prefix f) + 32 + 2 <= length data /\
    forall extra, convert (data ++ extra) true = ret (Str Known.pub32_hex).
Proof.
  apply (accepted_buffer_length Known.ss58 true).
  vm_compute. reflexivity.
Defined.

(** C4 as stated fails: this address decodes to 36 bytes whose first byte
    is 42, so the 1-byte branch applies and 35 bytes are required; the call
    returns the key and never looks at the 36th byte. *)
Lemma trailing_byte_accepted :
  let a := "KgRc6eo2k62eBQWUJJtmwwGxnVvWpFY28Te6A3wHvEUGwJJum"%string in
  exists data,
    Base58.b58decode a = ret data /\
    length data = 36 /\ required_length data = 35 /\
    decode a true = ret (Str Known.pub32_hex).
Proof.
  eexists. split; [vm_compute; reflexivity|]. repeat split.
Qed.



(** ** Stripping *)

Section Strip.
Context {A : Type}.
Implicit Types (p q : A -> bool) (l : list A).

Lemma rstrip_weaker p q l :
  (forall x, q x = true -> p x = true) ->
  rstrip q (rstrip p l) = rstrip p l.
Proof.
  intros Hqp. induction l as [|c l IH]; [reflexivity|].
  cbn [rstrip]. destruct (rstrip p l) as [|y r] eqn:E.
  - destruct (p c) eqn:Hc; [reflexivity|].
    cbn [rstrip]. destruct (q c) eqn:Hq; [|reflexivity].
    apply Hqp in Hq. congruence.
  - change (rstrip q (c :: y :: r)) with
      (match rstrip q (y :: r) with
       | [] => if q c then [] else [c]
       | r' => c :: r'
       end).
    now rewrite IH.
Qed.

Lemma rstrip_suffix_fixed p (a b : list A) :
  rstrip p (a ++ b) = a ++ b -> rstrip p b = b.
Proof.
  induction a as [|x a IH]; [trivial|].
  cbn [app rstrip]. destruct (rstrip p (a ++ b)) as [|y r] eqn:E.
  - destruct (p x); [discriminate|]. intros [= H].
    symmetry in H. apply app_eq_nil in H as [_ ->]. reflexivity.
  - intros [= H]. apply IH. exact H.
Qed.

Lemma rstrip_clean p l :
  Forall (fun x => p x = false) l -> rstrip p l = l.
Proof.
  induction 1 as [|x l Hx _ IH]; [reflexivity|].
  cbn [rstrip]. rewrite IH. destruct l; [now rewrite Hx | reflexivity].
Qed.

Lemma rstrip_map {B} (f : A -> B) (q : B -> bool) l :
  rstrip q (map f l) = map f (rstrip (fun x => q (f x)) l).
Proof.
  induction l as [|c l IH]; [reflexivity|].
  cbn [map rstrip]. rewrite IH.
  destruct (rstrip (fun x => q (f x)) l); [|reflexivity].
  cbn [map]. now destruct (q (f c)).
Qed.

Lemma lstrip_suffix p l :
  exists a, l = a ++ lstrip p l /\
            length a = length l - length (lstrip p l) /\
            Forall (fun x => p x = true) a.
Proof.
  induction l as [|c l (a & Ha & Hn & Hp)]; [now exists []|].
  cbn [lstrip]. destruct (p c) eqn:Hc.
  - exists (c :: a). split; [cbn [app]; congruence|].
    assert (length l = length a + length (lstrip p l))
      by (rewrite Ha at 1; apply length_app).
    split; [simpl length; lia|]. now constructor.
  - exists []. split; [reflexivity|]. split; [simpl; lia|]. constructor.
Qed.

Lemma lstrip_length p l : length (lstrip p l) <= length l.
Proof.
  induction l as [|c l IH]; [reflexivity|].
  cbn [lstrip]. destruct (p c); simpl; lia.
Qed.

Lemma lstrip_idem p l : lstrip p (lstrip p l) = lstrip p l.
Proof.
  induction l as [|c l IH]; [reflexivity|].
  cbn [lstrip]. destruct (p c) eqn:Hc; [exact IH|].
  cbn [lstrip]. now rewrite Hc.
Qed.

Lemma lstrip_keeps p l x :
  In x l -> p x = false -> In x (lstrip p l).
Proof.
  intros Hin Hx. induction l as [|c l IH]; [assumption|].
  cbn [lstrip]. destruct (p c) eqn:Hc; [|assumption].
  destruct Hin as [->|Hin]; [congruence | now apply IH].
Qed.

Lemma lstrip_repeat p z n l :
  p z = true -> lstrip p l = l -> lstrip p (repeat z n ++ l) = l.
Proof.
  intros Hz Hl. induction n as [|n IH]; [exact Hl|].
  cbn [repeat app lstrip]. now rewrite Hz.
Qed.
End Strip.

(** ** [str.encode('ascii')] *)

Lemma encode_ascii_from_raises pos s e :
  encode_ascii_from pos s = raise e -> exists n, e = UnicodeEncodeError n.
Proof.
  revert pos. induction s as [|c s IH]; intros pos; cbn [encode_ascii_from].
  - discriminate.
  - destruct (N_of_ascii c <? 128)%N.
    + destruct (encode_ascii_from (S pos) s) as [e'|r] eqn:E; cbn [bind].
      * intros [= <-]. now apply (IH (S pos)).
      * discriminate.
    + intros [= <-]. eauto.
Qed.

Lemma encode_ascii_from_returns pos s v :
  encode_ascii_from pos s = ret v -> v = map byte_of_ascii s.
Proof.
  revert pos v. induction s as [|c s IH]; intros pos v; cbn [encode_ascii_from].
  - now intros [= <-].
  - destruct (N_of_ascii c <? 128)%N; [|discriminate].
    destruct (encode_ascii_from (S pos) s) as [e'|r] eqn:E; cbn [bind];
      [discriminate|].
    intros [= <-]. cbn [map]. f_equal. now apply (IH (S pos)).
Qed.

Lemma encode_ascii_of_bytes pos (b : bytes) :
  Forall (fun x => (Byte.to_N x < 128)%N) b ->
  encode_ascii_from pos (map ascii_of_byte b) = ret b.
Proof.
  intros H. revert pos. induction H as [|x b Hx _ IH]; intros pos;
    [reflexivity|].
  cbn [map encode_ascii_from].
  assert (Hn : (N_of_ascii (ascii_of_byte x) <? 128)%N = true).
  { apply N.ltb_lt. rewrite ascii_of_byte_via_N, N_ascii_embedding; [exact Hx|].
    lia. }
  rewrite Hn, IH. cbn [bind]. now rewrite byte_of_ascii_of_byte.
Qed.

(** ** Characters and the alphabet *)

Lemma bytes_space_is_str_space c :
  bytes_isspace (byte_of_ascii c) = true -> str_isspace c = true.
Proof.
  rewrite <- (ascii_of_byte_of_ascii c) at 2.
  destruct (byte_of_ascii c); vm_compute; congruence.
Qed.

Lemma outside_alphabet_no_key c :
  char_in_alphabet c = false ->
  in_alphabet (byte_of_ascii c) = false /\
  Base58.is_first_symbol (byte_of_ascii c) = false.
Proof.
  rewrite <- (ascii_of_byte_of_ascii c) at 1.
  destruct (byte_of_ascii c); vm_compute; split; congruence.
Qed.

Lemma in_alphabet_false b :
  in_alphabet b = false ->
  Base58.map_get (Base58._get_base58_decode_map Base58.BITCOIN_ALPHABET) b = None.
Proof. unfold in_alphabet. now destruct (Base58.map_get _ b). Qed.

Lemma decode_loop_rejects m base v :
  forall d b, In b v -> Base58.map_get m b = None ->
  exists c, Base58.decode_loop m base d v = raise (ValueError_InvalidCharacter c).
Proof.
  induction v as [|x v IH]; intros d b Hin Hb; [contradiction|].
  cbn [Base58.decode_loop]. destruct (Base58.map_get m x) as [k|] eqn:Hx.
  - destruct Hin as [->|Hin]; [congruence|]. now apply (IH _ b).
  - eauto.
Qed.

(** ** Rejection of characters outside the alphabet *)

(** What [b58decode] does with the text that is left once the trailing
    whitespace is gone. *)
Lemma b58decode_unfold v :
  Base58.b58decode v =
  (b <- encode_ascii (rstrip str_isspace (list_ascii_of_string v)) ;;
   acc <- Base58.b58decode_int (lstrip Base58.is_first_symbol b) ;;
   int_to_bytes acc
     (length b - length (lstrip Base58.is_first_symbol b)
      + N.to_nat ((bit_length acc + 7) / 8))).
Proof. reflexivity. Qed.

Lemma second_rstrip_is_noop (s : list ascii) b :
  encode_ascii (rstrip str_isspace s) = ret b ->
  rstrip bytes_isspace (lstrip Base58.is_first_symbol b)
  = lstrip Base58.is_first_symbol b.
Proof.
  intros Hb. apply encode_ascii_from_returns in Hb.
  destruct (lstrip_suffix Base58.is_first_symbol b) as (a & Ha & _ & _).
  apply (rstrip_suffix_fixed bytes_isspace a). rewrite <- Ha, Hb.
  rewrite rstrip_map. f_equal.
  apply rstrip_weaker. exact bytes_space_is_str_space.
Qed.

(** C6, as the code has it: [b58decode] first strips trailing whitespace.
    When a character outside the Base58 alphabet is left after that, the
    decoding raises (an invalid-character ValueError, or UnicodeEncodeError
    for a non-ASCII character) and the call ends with that very exception,
    so nothing is sliced or hashed. *)
Theorem bad_character_rejected (a : string) (as_hex : bool) (c : ascii) :
  In c (rstrip str_isspace (list_ascii_of_string a)) ->
  char_in_alphabet c = false ->
  exists e, Base58.b58decode a = raise e /\
            decode a as_hex = raise e /\
            failure_of e = Some DecodeError /\
            fails_with (decode a as_hex) DecodeError.
Proof.
  intros Hin Hc.
  assert (H : exists e, Base58.b58decode a = raise e /\
                        failure_of e = Some DecodeError).
  { rewrite b58decode_unfold.
    destruct (encode_ascii (rstrip str_isspace (list_ascii_of_string a)))
      as [e|b] eqn:Hb; cbn [bind].
    - destruct (encode_ascii_from_raises _ _ _ Hb) as [n ->]. eauto.
    - unfold Base58.b58decode_int.
      rewrite (second_rstrip_is_noop _ b Hb).
      destruct (outside_alphabet_no_key c Hc) as [Hkey Hfirst].
      apply encode_ascii_from_returns in Hb.
      assert (Hin' : In (byte_of_ascii c) (lstrip Base58.is_first_symbol b)).
      { apply lstrip_keeps; [|exact Hfirst]. rewrite Hb. now apply in_map. }
      destruct (decode_loop_rejects _
                  (N.of_nat (length Base58.BITCOIN_ALPHABET))
                  _ 0%N _ Hin' (in_alphabet_false _ Hkey)) as [x Hx].
      rewrite Hx. exists (ValueError_InvalidCharacter x). now split. }
  destruct H as (e & He & Hk). exists e.
  assert (Hd : decode a as_hex = raise e).
  { unfold decode, ss58_to_pub32. now rewrite He. }
  split; [exact He|]. split; [exact Hd|]. split; [exact Hk|].
  exists e. now split.
Qed.

Lemma bad_character_rejected_witness :
  exists e, Base58.b58decode "5ETsYe7MLH6Mf9xAMgrLhYL2K1fQXBzn7g7bFHXRgFP3FZv0 " = raise e /\
            decode "5ETsYe7MLH6Mf9xAMgrLhYL2K1fQXBzn7g7bFHXRgFP3FZv0 " true = raise e /\
            failure_of e = Some DecodeError /\
            fails_with (decode "5ETsYe7MLH6Mf9xAMgrLhYL2K1fQXBzn7g7bFHXRgFP3FZv0 " true)
              DecodeError.
Proof.
  apply (bad_character_rejected
           "5ETsYe7MLH6Mf9xAMgrLhYL2K1fQXBzn7g7bFHXRgFP3FZv0 " true "0"%char).
  - vm_compute. repeat (try (left; reflexivity); right).
  - reflexivity.
Defined.

(** C6 as stated fails: a trailing space is a character outside the
    alphabet, yet the address of [32.py] followed by one is decoded, and
    the key returned, as if the space were not there. *)
Lemma trailing_space_accepted :
  let a := (Known.ss58 ++ " ")%string in
  In " "%char (list_ascii_of_string a) /\
  char_in_alphabet " " = false /\
  decode a true = ret (Str Known.pub32_hex) /\
  ~ fails_with (decode a true) DecodeError.
Proof.
  assert (H : decode (Known.ss58 ++ " ") true = ret (Str Known.pub32_hex))
    by (vm_compute; reflexivity).
  cbv zeta. split; [|split; [reflexivity|split; [exact H|]]].
  - vm_compute. repeat (try (left; reflexivity); right).
  - rewrite H. intros (e & He & _). discriminate.
Qed.

(** ** Determinism and the memo table *)

Lemma cached_map_lookup c :
  Stateful.reachable c ->
  Stateful._get_base58_decode_map c =
  (Base58._get_base58_decode_map Base58.BITCOIN_ALPHABET,
   Some (Base58._get_base58_decode_map Base58.BITCOIN_ALPHABET)).
Proof. intros [-> | ->]; reflexivity. Qed.

Lemma stateful_b58decode_int v c :
  Stateful.reachable c ->
  Stateful.b58decode_int v c =
  (Base58.b58decode_int v,
   Some (Base58._get_base58_decode_map Base58.BITCOIN_ALPHABET)).
Proof.
  intros Hc. unfold Stateful.b58decode_int. now rewrite (cached_map_lookup c Hc).
Qed.

Lemma stateful_b58decode v c :
  Stateful.reachable c ->
  fst (Stateful.b58decode v c) = Base58.b58decode v /\
  Stateful.reachable (snd (Stateful.b58decode v c)) /\
  Stateful.b58decode v (snd (Stateful.b58decode v c)) = Stateful.b58decode v c.
Proof.
  intros Hc. unfold Stateful.b58decode. rewrite b58decode_unfold.
  destruct (encode_ascii (rstrip str_isspace (list_ascii_of_string v)))
    as [e|b]; cbn [bind fst snd].
  - auto.
  - rewrite (stateful_b58decode_int _ c Hc). cbn [fst snd].
    split; [reflexivity|]. split; [now right|].
    rewrite stateful_b58decode_int by now right. reflexivity.
Qed.

(** C8: the only state a call can touch is the memo table of the Base58
    alphabet.  Whatever reachable state that table is in, the call yields
    what the pure function yields (success value or exception); it leaves
    the table reachable, and a second call with the same arguments from the
    state the first one left yields the same result and the same state. *)
Theorem decode_deterministic (a : string) (as_hex : bool) (c : Stateful.cache) :
  Stateful.reachable c ->
  let first := Stateful.ss58_to_pub32 a as_hex c in
  let second := Stateful.ss58_to_pub32 a as_hex (snd first) in
  fst first = decode a as_hex /\
  Stateful.reachable (snd first) /\
  second = first /\
  forall c', Stateful.reachable c' ->
             fst (Stateful.ss58_to_pub32 a as_hex c') = fst first.
Proof.
  intros Hc.
  assert (Hpure : forall c0, Stateful.reachable c0 ->
            fst (Stateful.ss58_to_pub32 a as_hex c0) = decode a as_hex).
  { intros c0 H0. unfold Stateful.ss58_to_pub32.
    destruct (stateful_b58decode a c0 H0) as (Hfst & _ & _).
    destruct (Stateful.b58decode a c0) as [r c1]. cbn [fst] in *.
    now rewrite Hfst. }
  cbv zeta. split; [now apply Hpure|].
  split; [|split].
  - unfold Stateful.ss58_to_pub32.
    destruct (stateful_b58decode a c Hc) as (_ & Hreach & _).
    now destruct (Stateful.b58decode a c) as [r c1].
  - unfold Stateful.ss58_to_pub32.
    destruct (stateful_b58decode a c Hc) as (_ & _ & Hagain).
    destruct (Stateful.b58decode a c) as [r c1]. cbn [snd] in *.
    now rewrite Hagain.
  - intros c' Hc'. now rewrite (Hpure c' Hc'), (Hpure c Hc).
Qed.

Lemma decode_deterministic_witness :
  let first := Stateful.ss58_to_pub32 Known.ss58 true None in
  let second := Stateful.ss58_to_pub32 Known.ss58 true (snd first) in
  fst first = decode Known.ss58 true /\
  Stateful.reachable (snd first) /\
  second = first /\
  forall c', Stateful.reachable c' ->
             fst (Stateful.ss58_to_pub32 Known.ss58 true c') = fst first.
Proof.
  apply (decode_deterministic Known.ss58 true None). left. reflexivity.
Defined.

(** ** Integers and their big-endian bytes *)

Local Open Scope N_scope.

Lemma byte_of_N_to_N (a : N) (x : byte) : byte_of_N (a * 256 + Byte.to_N x) = x.
Proof.
  unfold byte_of_N. pose proof (Byte.to_N_bounded x) as Hx.
  replace ((a * 256 + Byte.to_N x) mod 256) with (Byte.to_N x).
  - now rewrite Byte.of_to_N.
  - apply (N.mod_unique _ _ a); lia.
Qed.

Lemma int_from_bytes_snoc (v : bytes) (x : byte) :
  int_from_bytes (v ++ [x]) = int_from_bytes v * 256 + Byte.to_N x.
Proof. unfold int_from_bytes. now rewrite fold_left_app. Qed.

Lemma le_bytes_zero (z : nat) : le_bytes z 0 = repeat x00 z.
Proof. induction z as [|z IH]; [reflexivity|]. cbn [le_bytes repeat]. now f_equal. Qed.

Lemma le_bytes_int_from_bytes (v : bytes) (z : nat) :
  le_bytes (length v + z) (int_from_bytes v) = rev v ++ repeat x00 z.
Proof.
  induction v as [|x v IH] using rev_ind.
  - apply le_bytes_zero.
  - rewrite length_app, int_from_bytes_snoc, rev_app_distr.
    replace (length v + length [x] + z)%nat with (S (length v + z)) by (simpl; lia).
    cbn [le_bytes rev app]. rewrite byte_of_N_to_N. f_equal.
    replace ((int_from_bytes v * 256 + Byte.to_N x) / 256) with (int_from_bytes v).
    + exact IH.
    + pose proof (Byte.to_N_bounded x).
      apply (N.div_unique _ _ _ (Byte.to_N x)); lia.
Qed.

Lemma int_from_bytes_cons (x : byte) (v : bytes) :
  int_from_bytes (x :: v) = Byte.to_N x * 256 ^ N.of_nat (length v) + int_from_bytes v
  /\ int_from_bytes v < 256 ^ N.of_nat (length v).
Proof.
  induction v as [|y v [IHeq IHlt]] using rev_ind.
  - cbn. split; lia.
  - change (x :: v ++ [y]) with ((x :: v) ++ [y]).
    rewrite !int_from_bytes_snoc, IHeq, length_app.
    replace (N.of_nat (length v + length [y])) with (N.succ (N.of_nat (length v)))
      by (simpl; lia).
    rewrite N.pow_succ_r'. pose proof (Byte.to_N_bounded y). split; lia.
Qed.

Lemma int_from_bytes_bound (v : bytes) :
  int_from_bytes v < 256 ^ N.of_nat (length v).
Proof. exact (proj2 (int_from_bytes_cons x00 v)). Qed.

Lemma int_to_bytes_padded (v : bytes) (z : nat) :
  int_to_bytes (int_from_bytes v) (z + length v) = ret (repeat x00 z ++ v).
Proof.
  unfold int_to_bytes.
  assert (Hfit : (int_from_bytes v <? 256 ^ N.of_nat (z + length v)) = true).
  { apply N.ltb_lt. eapply N.lt_le_trans; [apply int_from_bytes_bound|].
    apply N.pow_le_mono_r; lia. }
  rewrite Hfit, (Nat.add_comm z), le_bytes_int_from_bytes.
  now rewrite rev_app_distr, rev_involutive, rev_repeat.
Qed.

(** [(acc.bit_length() + 7) // 8] bytes, and any number more, hold [acc]:
    the [to_bytes] call of [b58decode] never overflows. *)
Lemma int_to_bytes_fits (acc : N) (z : nat) :
  int_to_bytes acc (z + N.to_nat ((bit_length acc + 7) / 8))
  = ret (rev (le_bytes (z + N.to_nat ((bit_length acc + 7) / 8)) acc)).
Proof.
  unfold int_to_bytes, bit_length.
  set (n := (N.size acc + 7) / 8).
  assert (Hfit : (acc <? 256 ^ N.of_nat (z + N.to_nat n)) = true).
  { apply N.ltb_lt. eapply N.lt_le_trans; [apply N.size_gt|].
    change 256 with (2 ^ 8). rewrite <- N.pow_mul_r.
    apply N.pow_le_mono_r; [lia|].
    assert (N.size acc + 7 < 8 * N.succ n).
    { apply N.mul_succ_div_gt. lia. }
    lia. }
  now rewrite Hfit.
Qed.

Lemma decode_loop_raises m base (v : bytes) : forall d e,
  Base58.decode_loop m base d v = raise e ->
  exists c, e = ValueError_InvalidCharacter c.
Proof.
  induction v as [|x v IH]; intros d e; cbn [Base58.decode_loop].
  - discriminate.
  - destruct (Base58.map_get m x); [apply IH|]. intros [= <-]. eauto.
Qed.

(** Whatever [b58decode] raises is one of its two decoding errors. *)
Lemma b58decode_raises (v : string) (e : exn) :
  Base58.b58decode v = raise e -> failure_of e = Some DecodeError.
Proof.
  rewrite b58decode_unfold.
  destruct (encode_ascii (rstrip str_isspace (list_ascii_of_string v)))
    as [e'|b] eqn:Hb; cbn [bind].
  - intros [= <-]. now destruct (encode_ascii_from_raises _ _ _ Hb) as [n ->].
  - destruct (Base58.b58decode_int (lstrip Base58.is_first_symbol b))
      as [e'|acc] eqn:Hacc; cbn [bind].
    + intros [= <-]. unfold Base58.b58decode_int in Hacc.
      now destruct (decode_loop_raises _ _ _ _ _ Hacc) as [c ->].
    + rewrite int_to_bytes_fits. discriminate.
Qed.

(** [(acc.bit_length() + 7) // 8] is the number of bytes of [acc]. *)
Lemma byte_count (v : bytes) :
  lstrip Base58.is_zero_byte v = v ->
  N.to_nat ((bit_length (int_from_bytes v) + 7) / 8) = length v.
Proof.
  destruct v as [|x v]; [reflexivity|].
  cbn [lstrip]. destruct (Base58.is_zero_byte x) eqn:Hz.
  - intros H. exfalso.
    pose proof (lstrip_length Base58.is_zero_byte v) as Hle.
    rewrite H in Hle. simpl in Hle. lia.
  - intros _. destruct (int_from_bytes_cons x v) as [Heq Hlt].
    set (n := N.of_nat (length v)) in *. set (acc := int_from_bytes (x :: v)) in *.
    assert (Hx : 1 <= Byte.to_N x).
    { destruct x; try discriminate Hz; vm_compute; discriminate. }
    assert (Hpow : 256 ^ n = 2 ^ (8 * n)) by (now rewrite N.pow_mul_r).
    pose proof (Byte.to_N_bounded x) as Hb.
    assert (Hlo : 2 ^ (8 * n) <= acc) by nia.
    assert (Hhi : acc < 2 ^ (8 * n + 8)).
    { rewrite N.pow_add_r, <- Hpow. change (2 ^ 8) with 256. nia. }
    assert (Hpos : 0 < acc) by (pose proof (N.pow_nonzero 2 (8 * n)); lia).
    apply N.log2_le_pow2 in Hlo; [|exact Hpos].
    apply N.log2_lt_pow2 in Hhi; [|exact Hpos].
    unfold bit_length. rewrite N.size_log2 by lia.
    replace ((N.succ (N.log2 acc) + 7) / 8) with (n + 1).
    + unfold n. simpl length. lia.
    + apply (N.div_unique _ _ _ (N.log2 acc - 8 * n)); lia.
Qed.

(** ** Base58 digits *)

Lemma digit_facts_nat (k : nat) :
  (k < 58)%nat ->
  let c := nth k Base58.BITCOIN_ALPHABET x00 in
  slice k (k + 1) Base58.BITCOIN_ALPHABET = [c] /\
  Base58.map_get (Base58._get_base58_decode_map Base58.BITCOIN_ALPHABET) c
  = Some (N.of_nat k) /\
  Base58.is_first_symbol c = (N.of_nat k =? 0) /\
  in_alphabet c = true.
Proof.
  intros Hk.
  do 58 (destruct k as [|k]; [vm_compute; repeat split; reflexivity|]).
  lia.
Qed.

Lemma digit_facts (i : N) :
  i < 58 ->
  let c := nth (N.to_nat i) Base58.BITCOIN_ALPHABET x00 in
  slice (N.to_nat i) (N.to_nat i + 1) Base58.BITCOIN_ALPHABET = [c] /\
  Base58.map_get (Base58._get_base58_decode_map Base58.BITCOIN_ALPHABET) c = Some i /\
  Base58.is_first_symbol c = (i =? 0) /\
  in_alphabet c = true.
Proof.
  intros Hi. assert (Hk : (N.to_nat i < 58)%nat) by lia.
  pose proof (digit_facts_nat (N.to_nat i) Hk) as H.
  now rewrite N2Nat.id in H.
Qed.

Lemma alphabet_bytes (c : byte) :
  in_alphabet c = true ->
  bytes_isspace c = false /\ Byte.to_N c < 128 /\
  str_isspace (ascii_of_byte c) = false.
Proof.
  destruct c; vm_compute; intros H; try discriminate H; repeat split.
Qed.

Lemma decode_loop_app m base (xs ys : bytes) : forall d,
  Base58.decode_loop m base d (xs ++ ys) =
  (d' <- Base58.decode_loop m base d xs ;; Base58.decode_loop m base d' ys).
Proof.
  induction xs as [|x xs IH]; intros d; [reflexivity|].
  cbn [app Base58.decode_loop]. destruct (Base58.map_get m x); [apply IH|reflexivity].
Qed.

Lemma lstrip_fixed_snoc (p : byte -> bool) (l : bytes) (c : byte) :
  l <> [] -> lstrip p l = l -> lstrip p (l ++ [c]) = l ++ [c].
Proof.
  destruct l as [|x r]; [congruence|]. intros _.
  cbn [lstrip app]. destruct (p x); [|reflexivity].
  intros H. pose proof (lstrip_length p r) as Hle.
  rewrite H in Hle. simpl in Hle. lia.
Qed.

(** The loop of [b58encode_int], given enough turns, writes [i] in base 58,
    most significant digit first and without a leading zero digit. *)
Lemma encode_loop_spec (fuel : nat) : forall (i : N) (acc : bytes),
  i < 2 ^ N.of_nat fuel ->
  exists ds,
    Base58.encode_loop fuel i acc = ds ++ acc /\
    Forall (fun c => in_alphabet c = true) ds /\
    (forall d,
        Base58.decode_loop (Base58._get_base58_decode_map Base58.BITCOIN_ALPHABET)
          58 d ds = ret (d * 58 ^ N.of_nat (length ds) + i)) /\
    (i = 0 -> ds = []) /\
    lstrip Base58.is_first_symbol ds = ds.
Proof.
  induction fuel as [|fuel IH]; intros i acc Hi.
  - exists []. cbn in Hi. assert (i = 0) by lia. subst i.
    repeat split; auto. intros d. cbn. f_equal. lia.
  - cbn [Base58.encode_loop]. destruct (i =? 0) eqn:Hz.
    + apply N.eqb_eq in Hz. subst i. exists [].
      repeat split; auto. intros d. cbn. f_equal. lia.
    + apply N.eqb_neq in Hz.
      assert (Hq : i / 58 < 2 ^ N.of_nat fuel).
      { apply N.Div0.div_lt_upper_bound.
        rewrite Nat2N.inj_succ, N.pow_succ_r' in Hi. lia. }
      assert (Hr : i mod 58 < 58) by (apply N.mod_lt; lia).
      destruct (digit_facts (i mod 58) Hr) as (Hslice & Hget & Hfirst & Hin).
      set (c := nth (N.to_nat (i mod 58)) Base58.BITCOIN_ALPHABET x00) in *.
      rewrite Hslice.
      destruct (IH (i / 58) ([c] ++ acc) Hq) as (ds & Hds & Hall & Hdec & Hnil & Hstrip).
      exists (ds ++ [c]). split; [now rewrite Hds, <- app_assoc|].
      split; [apply Forall_app; split; [exact Hall | now constructor]|].
      split; [|split].
      * intros d. rewrite decode_loop_app, Hdec. cbn [bind ret Base58.decode_loop].
        rewrite Hget. unfold ret. f_equal.
        rewrite length_app, Nat2N.inj_add. cbn [length]. change (N.of_nat 1) with 1.
        rewrite N.add_1_r, N.pow_succ_r'.
        pose proof (N.div_mod i 58 ltac:(lia)). nia.
      * contradiction.
      * destruct ds as [|x r].
        -- specialize (Hdec 0). cbn in Hdec. injection Hdec as Hdec.
           assert (Hi0 : i / 58 = 0) by lia.
           assert (Hm : i mod 58 = i).
           { pose proof (N.div_mod i 58 ltac:(lia)). lia. }
           cbn [app lstrip]. rewrite Hfirst, Hm.
           apply N.eqb_neq in Hz. now rewrite Hz.
        -- apply lstrip_fixed_snoc; [discriminate | exact Hstrip].
Qed.

Lemma b58encode_int_spec (i : N) :
  exists ds,
    Base58.b58encode_int i = ds /\
    Forall (fun c => in_alphabet c = true) ds /\
    Base58.b58decode_int ds = ret i /\
    (i = 0 -> ds = []) /\
    lstrip Base58.is_first_symbol ds = ds.
Proof.
  unfold Base58.b58encode_int.
  destruct (encode_loop_spec (N.to_nat (N.size i)) i [])
    as (ds & Hds & Hall & Hdec & Hnil & Hstrip).
  { rewrite N2Nat.id. apply N.size_gt. }
  exists ds. rewrite app_nil_r in Hds. repeat split; auto.
  unfold Base58.b58decode_int. rewrite rstrip_clean.
  - change (N.of_nat (length Base58.BITCOIN_ALPHABET)) with 58.
    rewrite Hdec. f_equal.
  - eapply Forall_impl; [|exact Hall]. intros c Hc.
    now apply alphabet_bytes in Hc.
Qed.

(** ** Base58 round trip *)

Lemma b58encode_shape (data : bytes) :
  exists z v ds,
    data = repeat x00 z ++ v /\
    lstrip Base58.is_zero_byte v = v /\
    Base58.b58encode data = repeat "1"%byte z ++ ds /\
    Forall (fun c => in_alphabet c = true) ds /\
    Base58.b58decode_int ds = ret (int_from_bytes v) /\
    lstrip Base58.is_first_symbol ds = ds.
Proof.
  destruct (lstrip_suffix Base58.is_zero_byte data) as (a & Ha & Hlen & Hall).
  destruct (b58encode_int_spec (int_from_bytes (lstrip Base58.is_zero_byte data)))
    as (ds & Hds & Hin & Hdec & _ & Hstrip).
  exists (length a), (lstrip Base58.is_zero_byte data), ds.
  split; [|split; [apply lstrip_idem|split; [|auto]]].
  - rewrite Ha at 1. f_equal. apply Forall_eq_repeat.
    eapply Forall_impl; [|exact Hall]. intros x Hx.
    symmetry. now apply Byte.byte_dec_bl.
  - unfold Base58.b58encode. now rewrite Hds, Hlen.
Qed.

Lemma b58_round_trip (data : bytes) :
  Base58.b58decode (string_of_list_byte (Base58.b58encode data)) = ret data.
Proof.
  destruct (b58encode_shape data) as (z & v & ds & Hdata & Hv & Henc & Hin & Hdec & Hds).
  assert (Hall : Forall (fun c => in_alphabet c = true) (Base58.b58encode data)).
  { rewrite Henc. apply Forall_app. split; [|exact Hin].
    apply Forall_forall. intros x Hx. apply repeat_spec in Hx. now subst x. }
  rewrite b58decode_unfold. unfold string_of_list_byte.
  rewrite list_ascii_of_string_of_list_ascii, rstrip_clean.
  2:{ apply Forall_forall. intros c Hc. apply in_map_iff in Hc as (b & <- & Hb).
      rewrite Forall_forall in Hall. now apply alphabet_bytes, Hall. }
  unfold encode_ascii. rewrite encode_ascii_of_bytes.
  2:{ eapply Forall_impl; [|exact Hall]. intros c Hc. now apply alphabet_bytes in Hc. }
  rewrite Henc. cbn [bind ret].
  rewrite lstrip_repeat by (reflexivity || exact Hds).
  rewrite Hdec. cbn [bind ret].
  rewrite length_app, repeat_length, Nat.add_sub, byte_count by exact Hv.
  rewrite int_to_bytes_padded. now rewrite <- Hdata.
Qed.

(** ** Encoding, then decoding *)

Lemma extract_encoded (p k check : bytes) :
  selects_own_width p -> length k = 32%nat -> length check = 2%nat ->
  extract (p ++ k ++ check) = ret {| prefix := p; pubkey := k; checksum := check |}.
Proof.
  intros Hp Hk Hc.
  assert (Hlayout :
    {| prefix := slice 0 (length p) (p ++ k ++ check);
       pubkey := slice (length p) (length p + 32) (p ++ k ++ check);
       checksum := slice (length p + 32) (length p + 34) (p ++ k ++ check) |}
    = {| prefix := p; pubkey := k; checksum := check |}).
  { f_equal.
    - now apply slice_app_head.
    - apply slice_app_mid; [reflexivity | now rewrite Hk].
    - rewrite <- (app_nil_r check) at 1. rewrite (app_assoc p k).
      apply slice_app_mid; rewrite length_app; lia. }
  rewrite <- Hlayout.
  destruct p as [|first [|second [|third p]]]; try contradiction;
    cbn [selects_own_width] in Hp; cbn [app]; rewrite extract_cons.
  - apply N.ltb_lt in Hp. now rewrite Hp.
  - apply N.ltb_ge in Hp. now rewrite Hp.
Qed.

Lemma convert_encoded (p k : bytes) (as_hex : bool) :
  selects_own_width p -> length k = 32%nat ->
  convert (p ++ k ++ firstn 2 (Blake2b.blake2b (SS58PRE ++ p ++ k) 64)) as_hex
  = ret (if as_hex then Str ("0x" ++ hex k) else Bytes k).
Proof.
  intros Hp Hk. apply convert_returns.
  exists {| prefix := p; pubkey := k;
            checksum := firstn 2 (Blake2b.blake2b (SS58PRE ++ p ++ k) 64) |}.
  split; [|split; [|reflexivity]].
  - apply extract_encoded; auto.
    now rewrite length_firstn, blake2b_length.
  - reflexivity.
Qed.

(** C7, as the code has it: for a 32-byte key and a prefix whose width
    agrees with its first byte (1 byte below 64, or 2 bytes starting with a
    byte of 64 or more), [encode] succeeds and decoding its output returns
    the key, as bytes or as "0x" and its hexadecimal digits. *)
Theorem round_trip (k p : bytes) :
  length k = 32%nat ->
  selects_own_width p ->
  exists s, encode k p = inr s /\
            decode s false = ret (Bytes k) /\
            decode s true = ret (Str ("0x" ++ hex k)).
Proof.
  intros Hk Hp. unfold encode.
  assert (Hlen : ((length k =? 32) && ((length p =? 1) || (length p =? 2)))%nat = true).
  { rewrite Hk.
    destruct p as [|first [|second [|third p]]]; try contradiction; reflexivity. }
  rewrite Hlen. eexists. split; [reflexivity|].
  unfold decode, ss58_to_pub32. rewrite b58_round_trip. cbn [bind ret].
  split; now rewrite convert_encoded.
Qed.

Lemma round_trip_witness :
  exists s, encode Known.pub32 ["*"%byte] = inr s /\
            decode s false = ret (Bytes Known.pub32) /\
            decode s true = ret (Str ("0x" ++ hex Known.pub32)).
Proof.
  apply (round_trip Known.pub32 ["*"%byte]).
  - reflexivity.
  - vm_compute. reflexivity.
Defined.

(** C7 as stated fails: with the 1-byte prefix 64 the decoder takes the
    2-byte branch, finds a single byte where the checksum should be and
    raises; the key is never returned. *)
Lemma round_trip_fails_for_prefix_64 :
  length Known.pub32 = 32%nat /\ length ["@"%byte] = 1%nat /\
  encode Known.pub32 ["@"%byte]
  = inr "7RnPEU2DngLM6SrNHQCs1NBNXgosjDrEGNJUnKg3s4TmSgR5"%string /\
  decode "7RnPEU2DngLM6SrNHQCs1NBNXgosjDrEGNJUnKg3s4TmSgR5" false
  = raise ValueError_InvalidSS58Checksum.
Proof. repeat split; vm_compute; reflexivity. Qed.

(** * Further properties of the tools *)

Local Open Scope nat_scope.

(** ** Which exceptions leave [ss58_to_pub32] *)

Lemma convert_raises (data : bytes) (as_hex : bool) (e : Py.exn) :
  convert data as_hex = raise e ->
  (e = IndexError /\ data = []) \/
  (e = ValueError_InvalidSS58Checksum /\ data <> []).
Proof.
  destruct data as [|first rest].
  - intros [= <-]. now left.
  - unfold convert. rewrite extract_cons. cbn [bind ret].
    destruct (negb _); [|destruct as_hex; discriminate].
    intros [= <-]. right. split; [reflexivity | discriminate].
Qed.

Lemma decode_raises (a : string) (as_hex : bool) (e : Py.exn) :
  decode a as_hex = raise e ->
  (Base58.b58decode a = raise e /\ failure_of e = Some DecodeError) \/
  (exists data, Base58.b58decode a = ret data /\ convert data as_hex = raise e).
Proof.
  unfold decode, ss58_to_pub32.
  destruct (Base58.b58decode a) as [e'|data] eqn:Hd; cbn [bind].
  - intros [= <-]. left. split; [reflexivity|]. now apply (b58decode_raises a).
  - intros H. right. now exists data.
Qed.

(** X1: whatever [ss58_to_pub32] raises is a ValueError (invalid character,
    UnicodeEncodeError, bad checksum) or the IndexError of an empty buffer;
    the [to_bytes] call inside [b58decode] never overflows. *)
Theorem raised_exceptions (a : string) (as_hex : bool) (e : Py.exn) :
  ss58_to_pub32 a as_hex = raise e ->
  e <> OverflowError /\
  (isinstance_ValueError e = true \/
   e = IndexError /\ Base58.b58decode a = ret []).
Proof.
  intros H. destruct (decode_raises a as_hex e H) as [[_ Hk] | (data & Hd & Hc)].
  - destruct e; try discriminate Hk; split; (discriminate || now left).
  - destruct (convert_raises data as_hex e Hc) as [[-> ->] | [-> _]].
    + split; [discriminate|]. right. now split.
    + split; [discriminate|]. now left.
Qed.

Lemma raised_exceptions_witness :
  ValueError_InvalidCharacter "l" <> OverflowError /\
  (isinstance_ValueError (ValueError_InvalidCharacter "l") = true \/
   ValueError_InvalidCharacter "l" = IndexError /\ Base58.b58decode "1l" = ret []).
Proof.
  apply (raised_exceptions "1l" true (ValueError_InvalidCharacter "l")).
  reflexivity.
Defined.

(** ** Blank addresses *)

Lemma decode_loop_grows m (v : bytes) : forall d acc,
  Base58.decode_loop m 58 d v = ret acc -> (d <= acc)%N.
Proof.
  induction v as [|x v IH]; intros d acc; cbn [Base58.decode_loop].
  - intros [= <-]. lia.
  - destruct (Base58.map_get m x) as [k|]; [|discriminate].
    intros H. apply IH in H. lia.
Qed.

Lemma zero_digit_is_first_symbol (x : byte) :
  Base58.map_get (Base58._get_base58_decode_map Base58.BITCOIN_ALPHABET) x = Some 0%N ->
  Base58.is_first_symbol x = true.
Proof. destruct x; vm_compute; congruence. Qed.

Lemma lstrip_fixed_head {A} (p : A -> bool) (x : A) (r : list A) :
  lstrip p (x :: r) = x :: r -> p x = false.
Proof.
  cbn [lstrip]. destruct (p x); [|reflexivity].
  intros H. pose proof (lstrip_length p r) as Hle.
  rewrite H in Hle. simpl in Hle. lia.
Qed.

Lemma byte_count_zero (acc : N) :
  N.to_nat ((bit_length acc + 7) / 8) = 0 -> acc = 0%N.
Proof.
  destruct acc as [|p]; [reflexivity|]. intros H. exfalso.
  unfold bit_length in H. rewrite N.size_log2 in H by discriminate.
  assert (1 <= (N.succ (N.log2 (N.pos p)) + 7) / 8)%N.
  { apply N.div_le_lower_bound; lia. }
  lia.
Qed.

Lemma b58decode_empty_iff (a : string) :
  Base58.b58decode a = ret [] <-> Batch.blank a.
Proof.
  unfold Batch.blank. rewrite b58decode_unfold. split.
  - destruct (encode_ascii (rstrip str_isspace (list_ascii_of_string a)))
      as [e|b] eqn:Hb; cbn [bind]; [discriminate|].
    destruct (Base58.b58decode_int (lstrip Base58.is_first_symbol b))
      as [e|acc] eqn:Hacc; cbn [bind]; [discriminate|].
    rewrite int_to_bytes_fits. intros [= H].
    apply (f_equal (@length byte)) in H.
    rewrite length_rev, le_bytes_length in H. cbn [length] in H.
    apply Nat.eq_add_0 in H as [Hz Hn].
    assert (Hacc0 : acc = 0%N) by (now apply byte_count_zero).
    destruct (lstrip_suffix Base58.is_first_symbol b) as (pre & Hpre & Hlen & _).
    assert (Hnil : pre = []) by (apply length_zero_iff_nil; lia).
    rewrite Hnil in Hpre. cbn [app] in Hpre.
    unfold Base58.b58decode_int in Hacc.
    rewrite (second_rstrip_is_noop _ b Hb), <- Hpre in Hacc.
    change (N.of_nat (length Base58.BITCOIN_ALPHABET)) with 58%N in Hacc.
    destruct b as [|x r].
    + apply encode_ascii_from_returns in Hb. symmetry in Hb.
      now apply map_eq_nil in Hb.
    + exfalso. symmetry in Hpre. apply lstrip_fixed_head in Hpre.
      cbn [Base58.decode_loop] in Hacc.
      destruct (Base58.map_get _ x) as [k|] eqn:Hk; [|discriminate].
      apply decode_loop_grows in Hacc.
      assert (k = 0%N) by lia. subst k.
      apply zero_digit_is_first_symbol in Hk. congruence.
  - intros ->. reflexivity.
Qed.

(** X2: the call raises IndexError exactly when the address is empty or
    consists of whitespace only; every other address either converts or
    raises a ValueError. *)
Theorem index_error_iff_blank (a : string) (as_hex : bool) :
  ss58_to_pub32 a as_hex = raise IndexError <-> Batch.blank a.
Proof.
  rewrite <- b58decode_empty_iff. split.
  - intros H. destruct (decode_raises a as_hex _ H) as [[_ Hk] | (data & Hd & Hc)].
    + discriminate.
    + destruct (convert_raises data as_hex _ Hc) as [[_ ->] | [He _]];
        [exact Hd | discriminate].
  - intros H. unfold ss58_to_pub32. now rewrite H.
Qed.

(** ** [bytes.hex] and [bytes.fromhex] *)

Import Hotkey.

Lemma hex_byte_facts (x : byte) :
  let hi := hex_digit (Byte.to_N x / 16) in
  let lo := hex_digit (Byte.to_N x mod 16) in
  hex_isspace hi = false /\
  hex_value hi = Some (Byte.to_N x / 16)%N /\
  hex_value lo = Some (Byte.to_N x mod 16)%N /\
  byte_of_N (16 * (Byte.to_N x / 16) + Byte.to_N x mod 16) = x /\
  (N_of_ascii hi <? 128)%N = true /\ (N_of_ascii lo <? 128)%N = true /\
  str_lower hi = hi /\ str_lower lo = lo.
Proof. destruct x; vm_compute; repeat split. Qed.

Lemma fromhex_pairs_hex (b : bytes) :
  fromhex_pairs (list_ascii_of_string (hex b)) = inr b.
Proof.
  induction b as [|x b IH]; [reflexivity|].
  destruct (hex_byte_facts x) as (Hsp & Hhi & Hlo & Hbyte & _).
  cbn [hex list_ascii_of_string fromhex_pairs].
  now rewrite Hsp, Hhi, Hlo, IH, Hbyte.
Qed.

Lemma hex_is_ascii (b : bytes) :
  forallb (fun c => (N_of_ascii c <? 128)%N) (list_ascii_of_string (hex b)) = true.
Proof.
  induction b as [|x b IH]; [reflexivity|].
  destruct (hex_byte_facts x) as (_ & _ & _ & _ & Hhi & Hlo & _).
  cbn [hex list_ascii_of_string forallb]. now rewrite Hhi, Hlo, IH.
Qed.

Lemma hex_is_lower (b : bytes) :
  map str_lower (list_ascii_of_string (hex b)) = list_ascii_of_string (hex b).
Proof.
  induction b as [|x b IH]; [reflexivity|].
  destruct (hex_byte_facts x) as (_ & _ & _ & _ & _ & _ & Hhi & Hlo).
  cbn [hex list_ascii_of_string map]. now rewrite Hhi, Hlo, IH.
Qed.

Lemma fromhex_hex (b : bytes) : fromhex (list_ascii_of_string (hex b)) = inr b.
Proof. unfold fromhex. now rewrite hex_is_ascii, fromhex_pairs_hex. Qed.

Lemma hex_injective (b1 b2 : bytes) : hex b1 = hex b2 -> b1 = b2.
Proof.
  intros H. pose proof (fromhex_pairs_hex b1) as H1.
  rewrite H, fromhex_pairs_hex in H1. congruence.
Qed.

(** ** The [as_hex] flag *)

(** X3: the flag changes the rendering only.  The call raises the same
    exception with and without it, and it returns the bytes [k] without the
    flag exactly when it returns "0x" followed by the hexadecimal digits of
    [k] with it; the result is always a [str] with the flag and always
    [bytes] without. *)
Theorem as_hex_only_renders (a : string) :
  (forall e, ss58_to_pub32 a true = raise e <-> ss58_to_pub32 a false = raise e) /\
  (forall k, ss58_to_pub32 a false = ret (Bytes k) <->
             ss58_to_pub32 a true = ret (Str ("0x" ++ hex k))) /\
  (forall b, ss58_to_pub32 a true <> ret (Bytes b)) /\
  (forall s, ss58_to_pub32 a false <> ret (Str s)).
Proof.
  unfold ss58_to_pub32.
  destruct (Base58.b58decode a) as [e0|data]; cbn [bind].
  - repeat split; intros; unfold raise, ret in *; congruence.
  - unfold convert. destruct (extract data) as [e1|f]; cbn [bind].
    + repeat split; intros; unfold raise, ret in *; congruence.
    + destruct (negb (bytes_eqb (checksum f) (recomputed f))).
      * repeat split; intros; unfold raise, ret in *; congruence.
      * split; [|split; [|split]].
        -- intros e. split; discriminate.
        -- intros k. unfold ret. split.
           ++ intros [= ->]. reflexivity.
           ++ intros [= H]. apply hex_injective in H. now rewrite H.
        -- discriminate.
        -- discriminate.
Qed.

(** ** From a decoded key to a hotkey argument *)

Lemma stake_accepts_rendered_key (k : bytes) :
  length k = 32 -> stake_hotkey_bytes ("0x" ++ hex k) = inr k.
Proof.
  intros Hk. unfold stake_hotkey_bytes.
  cbn [String.append list_ascii_of_string map].
  change (str_lower "0") with "0"%char. change (str_lower "x") with "x"%char.
  rewrite hex_is_lower.
  change (removeprefix ["0"%char; "x"%char]
            ("0"%char :: "x"%char :: list_ascii_of_string (hex k)))
    with (list_ascii_of_string (hex k)).
  now rewrite fromhex_hex, Hk.
Qed.

Lemma register_accepts_rendered_key (k : bytes) :
  length k = 32 -> register_hotkey_bytes32 ("0x" ++ hex k) = inr k.
Proof.
  intros Hk. unfold register_hotkey_bytes32.
  cbn [String.append list_ascii_of_string].
  change (startswith ["0"%char; "x"%char]
            ("0"%char :: "x"%char :: list_ascii_of_string (hex k)))
    with true.
  cbn [skipn]. now rewrite fromhex_hex, Hk.
Qed.

Lemma rendered_key (a : string) (s : string) :
  ss58_to_pub32 a true = ret (Str s) ->
  exists k, s = ("0x" ++ hex k)%string /\ length k = 32 /\
            ss58_to_pub32 a false = ret (Bytes k).
Proof.
  intros H. destruct (decode_returns a true (Str s) H) as (data & Hd & Hc).
  apply convert_returns in Hc as (f & Hf & Hsum & [= ->]).
  assert (H2 : length (checksum f) = 2) by (rewrite Hsum; apply recomputed_length).
  destruct (full_checksum data f Hf H2) as (_ & H32 & _).
  exists (pubkey f). repeat split; auto.
  unfold ss58_to_pub32. rewrite Hd. cbn [bind]. apply convert_returns.
  exists f. now repeat split.
Qed.

(** X4: the string [ss58_to_pub32] returns for an address is accepted by
    the [--hotkey-bytes32] conversion of [stake.py], which recovers from it
    the very 32 bytes the address carries. *)
Theorem stake_reads_back_key (a : string) (s : string) :
  ss58_to_pub32 a true = ret (Str s) ->
  exists k, ss58_to_pub32 a false = ret (Bytes k) /\
            stake_hotkey_bytes s = inr k.
Proof.
  intros H. destruct (rendered_key a s H) as (k & -> & Hk & Hraw).
  exists k. split; [exact Hraw|]. now apply stake_accepts_rendered_key.
Qed.

Lemma stake_reads_back_key_witness :
  exists k, ss58_to_pub32 Known.ss58 false = ret (Bytes k) /\
            stake_hotkey_bytes Known.pub32_hex = inr k.
Proof.
  apply (stake_reads_back_key Known.ss58 Known.pub32_hex).
  vm_compute. reflexivity.
Defined.

(** X5: the same string is accepted by the [--hotkey] conversion of
    [register_neuron.py], with the same 32 bytes as result. *)
Theorem register_reads_back_key (a : string) (s : string) :
  ss58_to_pub32 a true = ret (Str s) ->
  exists k, ss58_to_pub32 a false = ret (Bytes k) /\
            register_hotkey_bytes32 s = inr k.
Proof.
  intros H. destruct (rendered_key a s H) as (k & -> & Hk & Hraw).
  exists k. split; [exact Hraw|]. now apply register_accepts_rendered_key.
Qed.

Lemma register_reads_back_key_witness :
  exists k, ss58_to_pub32 Known.ss58 false = ret (Bytes k) /\
            register_hotkey_bytes32 Known.pub32_hex = inr k.
Proof.
  apply (register_reads_back_key Known.ss58 Known.pub32_hex).
  vm_compute. reflexivity.
Defined.

(** ** The two hotkey conversions compared *)

Lemma str_lower_facts (c : ascii) :
  hex_isspace (str_lower c) = hex_isspace c /\
  hex_value (str_lower c) = hex_value c /\
  (N_of_ascii (str_lower c) <? 128)%N = (N_of_ascii c <? 128)%N /\
  Ascii.eqb "0" (str_lower c) = Ascii.eqb "0" c /\
  Ascii.eqb "x" (str_lower c) = (Ascii.eqb "x" c || Ascii.eqb "X" c)%bool.
Proof.
  rewrite <- (ascii_of_byte_of_ascii c).
  destruct (byte_of_ascii c); vm_compute; repeat split.
Qed.

Lemma fromhex_pairs_lower (t : list ascii) :
  fromhex_pairs (map str_lower t) = fromhex_pairs t /\
  forall c, fromhex_pairs (map str_lower (c :: t)) = fromhex_pairs (c :: t).
Proof.
  induction t as [|d t [IHt IHc]].
  - split; [reflexivity|]. intros c.
    destruct (str_lower_facts c) as (Hsp & Hval & _).
    cbn [map fromhex_pairs]. now rewrite Hsp, Hval.
  - split; [apply IHc|]. intros c.
    destruct (str_lower_facts c) as (Hsp & Hval & _).
    destruct (str_lower_facts d) as (_ & Hvald & _).
    specialize (IHc d).
    change (map str_lower (c :: d :: t))
      with (str_lower c :: map str_lower (d :: t)).
    change (fromhex_pairs (str_lower c :: map str_lower (d :: t))) with
      (if hex_isspace (str_lower c) then fromhex_pairs (map str_lower (d :: t))
       else match hex_value (str_lower c) with
            | Some top =>
                match hex_value (str_lower d) with
                | Some bot =>
                    match fromhex_pairs (map str_lower t) with
                    | inr rest => inr (byte_of_N (16 * top + bot) :: rest)
                    | inl e => inl e
                    end
                | None => inl ValueError_fromhex
                end
            | None => inl ValueError_fromhex
            end).
    rewrite Hsp, Hval, Hvald, IHc, IHt.
    cbn [fromhex_pairs]. destruct (hex_isspace c); [reflexivity|].
    now destruct (hex_value c).
Qed.

Lemma lower_keeps_ascii (t : list ascii) :
  forallb (fun c => (N_of_ascii c <? 128)%N) (map str_lower t)
  = forallb (fun c => (N_of_ascii c <? 128)%N) t.
Proof.
  induction t as [|c t IH]; [reflexivity|].
  destruct (str_lower_facts c) as (_ & _ & H & _).
  cbn [map forallb]. now rewrite H, IH.
Qed.

Lemma fromhex_lower (t : list ascii) : fromhex (map str_lower t) = fromhex t.
Proof.
  unfold fromhex.
  now rewrite (proj1 (fromhex_pairs_lower t)), lower_keeps_ascii.
Qed.

Lemma hotkey_text_agrees (t : list ascii) :
  startswith ["0"; "X"]%char t = false ->
  fromhex (removeprefix ["0"; "x"]%char (map str_lower t))
  = if startswith ["0"; "x"]%char t then fromhex (skipn 2 t) else fromhex t.
Proof.
  intros HX. destruct t as [|c1 [|c2 r]].
  - reflexivity.
  - unfold removeprefix. cbn [map startswith].
    rewrite !andb_false_r. apply (fromhex_lower [c1]).
  - destruct (str_lower_facts c1) as (_ & _ & _ & H0 & _).
    destruct (str_lower_facts c2) as (_ & _ & _ & _ & Hx).
    unfold removeprefix. cbn [map startswith length skipn] in *.
    rewrite H0, Hx, !andb_true_r in *.
    destruct (Ascii.eqb "0" c1); cbn [andb] in *.
    + rewrite HX, orb_false_r. destruct (Ascii.eqb "x" c2).
      * apply fromhex_lower.
      * apply (fromhex_lower (c1 :: c2 :: r)).
    + apply (fromhex_lower (c1 :: c2 :: r)).
Qed.

(** X6: on every argument that does not start with "0X", the hotkey
    conversions of [stake.py] and [register_neuron.py] accept the same
    strings and produce the same 32 bytes. *)
Theorem hotkey_conversions_agree (s : string) (k : bytes) :
  startswith ["0"; "X"]%char (list_ascii_of_string s) = false ->
  (stake_hotkey_bytes s = inr k <-> register_hotkey_bytes32 s = inr k).
Proof.
  intros HX. unfold stake_hotkey_bytes, register_hotkey_bytes32.
  change (list_ascii_of_string "0x") with ["0"; "x"]%char.
  rewrite (hotkey_text_agrees _ HX).
  destruct (if startswith ["0"; "x"]%char (list_ascii_of_string s)
            then fromhex (skipn 2 (list_ascii_of_string s))
            else fromhex (list_ascii_of_string s)) as [e|b].
  - split; discriminate.
  - destruct (negb (length b =? 32)); [split; discriminate | reflexivity].
Qed.

Lemma hotkey_conversions_agree_witness :
  stake_hotkey_bytes Known.pub32_hex = inr Known.pub32 <->
  register_hotkey_bytes32 Known.pub32_hex = inr Known.pub32.
Proof.
  apply (hotkey_conversions_agree Known.pub32_hex Known.pub32). reflexivity.
Defined.

(** X7: an argument that starts with "0X" is never accepted by
    [register_neuron.py], whose prefix test is case-sensitive, so that the X
    reaches [bytes.fromhex]; [stake.py] lower-cases first and treats it as
    it treats "0x". *)
Theorem uppercase_prefix (t : string) :
  register_hotkey_bytes32 ("0X" ++ t) = inl ValueError_fromhex /\
  stake_hotkey_bytes ("0X" ++ t) = stake_hotkey_bytes ("0x" ++ t).
Proof.
  split; [|reflexivity].
  unfold register_hotkey_bytes32. cbn [String.append list_ascii_of_string].
  change (startswith (list_ascii_of_string "0x")
            ("0"%char :: "X"%char :: list_ascii_of_string t)) with false.
  cbv iota. unfold fromhex. cbn [forallb].
  now destruct (_ && _)%bool.
Qed.

(** ** The conversion loop *)

Lemma uncaught_is_blank (a : string) (as_hex : bool) (e : Py.exn) :
  ss58_to_pub32 a as_hex = raise e ->
  isinstance_ValueError e = false ->
  e = IndexError /\ Batch.blank a.
Proof.
  intros H Hcls.
  destruct (decode_raises a as_hex e H) as [[_ Hk] | (data & Hd & Hc)].
  - destruct e; discriminate.
  - destruct (convert_raises data as_hex e Hc) as [[-> ->] | [-> _]].
    + split; [reflexivity|]. now apply b58decode_empty_iff.
    + discriminate.
Qed.

Lemma blank_dec (a : string) : {Batch.blank a} + {~ Batch.blank a}.
Proof.
  unfold Batch.blank.
  destruct (rstrip str_isspace (list_ascii_of_string a));
    [now left | right; discriminate].
Qed.

Lemma blank_raises (a : string) (as_hex : bool) :
  Batch.blank a -> ss58_to_pub32 a as_hex = raise IndexError.
Proof.
  intros Hb. apply b58decode_empty_iff in Hb.
  unfold ss58_to_pub32. now rewrite Hb.
Qed.

Lemma try_pub32_cases (hk : string) :
  Batch.blank hk /\ Batch.try_pub32 hk = raise IndexError \/
  ~ Batch.blank hk /\
  Batch.try_pub32 hk =
  ret (match ss58_to_pub32 hk true with inr pub32 => Some pub32 | inl _ => None end).
Proof.
  unfold Batch.try_pub32. destruct (blank_dec hk) as [Hb|Hb].
  - left. split; [exact Hb|]. now rewrite (blank_raises hk true Hb).
  - right. split; [exact Hb|].
    destruct (ss58_to_pub32 hk true) as [e|v] eqn:E; [|reflexivity].
    destruct (isinstance_ValueError e) eqn:Hcls; [reflexivity|].
    destruct (uncaught_is_blank hk true e E Hcls) as [_ Hblank]. contradiction.
Qed.

Section Loop.
Context {number : Type} (zero : number) (add : number -> number -> number).

Lemma loop_cases (info : Batch.stake_info number) (hotkeys : list string) :
  forall amounts pub32_list,
    Exists Batch.blank hotkeys /\
    Batch.loop zero add info hotkeys amounts pub32_list = raise IndexError \/
    Forall (fun hk => ~ Batch.blank hk) hotkeys /\
    Batch.loop zero add info hotkeys amounts pub32_list =
    ret (amounts ++
           map (fun hk => Batch.total_value zero add (Batch.entries_of info hk)) hotkeys,
         pub32_list ++
           map (fun hk => match ss58_to_pub32 hk true with
                          | inr pub32 => Some pub32
                          | inl _ => None
                          end) hotkeys).
Proof.
  induction hotkeys as [|hk rest IH]; intros amounts pub32_list.
  - right. split; [constructor|]. cbn. now rewrite !app_nil_r.
  - cbn [Batch.loop].
    destruct (try_pub32_cases hk) as [[Hb Htry] | [Hb Htry]]; rewrite Htry.
    + left. split; [now constructor | reflexivity].
    + cbn [bind ret].
      destruct (IH (amounts ++ [Batch.total_value zero add (Batch.entries_of info hk)])
                  (pub32_list ++ [match ss58_to_pub32 hk true with
                                  | inr pub32 => Some pub32
                                  | inl _ => None
                                  end]))
        as [[Hex Hloop] | [Hall Hloop]]; rewrite Hloop.
      * left. split; [now constructor | reflexivity].
      * right. split; [now constructor|].
        cbn [map]. now rewrite <- !app_assoc.
Qed.


(** X9: when the loop completes, [amounts] and [pub32_list] have one
    element per hotkey, in the order of the hotkeys: the total of the
    hotkey's entries, and the converted key, or None where the conversion
    raised a ValueError. *)
Theorem loop_result (info : Batch.stake_info number)
  (amounts : list number) (pub32_list : list (option value)) :
  Batch.convert_all zero add info = ret (amounts, pub32_list) ->
  length amounts = length info /\ length pub32_list = length info /\
  amounts =
    map (fun hk => Batch.total_value zero add (Batch.entries_of info hk))
      (Batch.hotkeys_of info) /\
  pub32_list =
    map (fun hk => match ss58_to_pub32 hk true with
                   | inr pub32 => Some pub32
                   | inl _ => None
                   end) (Batch.hotkeys_of info).
Proof.
  unfold Batch.convert_all.
  destruct (loop_cases info (Batch.hotkeys_of info) [] [])
    as [[Hex Hloop] | [Hall Hloop]]; rewrite Hloop; [discriminate|].
  cbn [app]. intros [= <- <-]. unfold Batch.hotkeys_of.
  now rewrite !length_map.
Qed.

(** X10: every key the loop puts in [pub32_list] is a string that both
    [stake.py] and [register_neuron.py] accept as hotkey argument, and both
    read the same 32 bytes from it. *)
Theorem loop_output_is_hotkey_argument (info : Batch.stake_info number)
  (amounts : list number) (pub32_list : list (option value)) (pub32 : value) :
  Batch.convert_all zero add info = ret (amounts, pub32_list) ->
  In (Some pub32) pub32_list ->
  exists s k, pub32 = Str s /\ length k = 32 /\
              stake_hotkey_bytes s = inr k /\
              register_hotkey_bytes32 s = inr k.
Proof.
  unfold Batch.convert_all.
  destruct (loop_cases info (Batch.hotkeys_of info) [] [])
    as [[Hex Hloop] | [Hall Hloop]]; rewrite Hloop; [discriminate|].
  cbn [app]. intros [= _ <-] Hin.
  apply in_map_iff in Hin as (hk & Hslot & _).
  destruct (ss58_to_pub32 hk true) as [e|v] eqn:E; [discriminate|].
  injection Hslot as ->.
  destruct (decode_returns hk true pub32 E) as (data & _ & Hc).
  apply convert_returns in Hc as (f & _ & _ & Hv). cbv iota in Hv.
  rewrite Hv in E.
  destruct (rendered_key hk _ E) as (k & Hs & Hk & _).
  exists ("0x" ++ hex (pubkey f))%string, k. split; [exact Hv|].
  split; [exact Hk|]. rewrite Hs.
  split; [now apply stake_accepts_rendered_key
         | now apply register_accepts_rendered_key].
Qed.

End Loop.

Lemma loop_result_witness :
  length [5%N; 0%N] = length [(Known.ss58, [Some 2%N; None; Some 3%N]); ("abc"%string, [])] /\
  length [Some (Str Known.pub32_hex); None]
  = length [(Known.ss58, [Some 2%N; None; Some 3%N]); ("abc"%string, [])] /\
  [5%N; 0%N] =
    map (fun hk => Batch.total_value 0%N N.add
                     (Batch.entries_of
                        [(Known.ss58, [Some 2%N; None; Some 3%N]); ("abc"%string, [])] hk))
      (Batch.hotkeys_of [(Known.ss58, [Some 2%N; None; Some 3%N]); ("abc"%string, [])]) /\
  [Some (Str Known.pub32_hex); None] =
    map (fun hk => match ss58_to_pub32 hk true with
                   | inr pub32 => Some pub32
                   | inl _ => None
                   end)
      (Batch.hotkeys_of [(Known.ss58, [Some 2%N; None; Some 3%N]); ("abc"%string, [])]).
Proof.
  apply (loop_result 0%N N.add
           [(Known.ss58, [Some 2%N; None; Some 3%N]); ("abc"%string, [])]).
  vm_compute. reflexivity.
Defined.

Lemma loop_output_is_hotkey_argument_witness :
  exists s k, Str Known.pub32_hex = Str s /\ length k = 32 /\
              stake_hotkey_bytes s = inr k /\
              register_hotkey_bytes32 s = inr k.
Proof.
  apply (loop_output_is_hotkey_argument 0%N N.add
           [(Known.ss58, [Some 2%N; None; Some 3%N]); ("abc"%string, [])]
           [5%N; 0%N] [Some (Str Known.pub32_hex); None]).
  - vm_compute. reflexivity.
  - left. reflexivity.
Defined.

(** ** How long an address must be *)

Lemma rstrip_length {A} (p : A -> bool) (l : list A) :
  length (rstrip p l) <= length l.
Proof.
  induction l as [|c l IH]; [reflexivity|].
  cbn [rstrip]. destruct (rstrip p l); [destruct (p c)|]; simpl in *; lia.
Qed.

Lemma chars_length (s : string) :
  length (list_ascii_of_string s) = String.length s.
Proof. induction s as [|c s IH]; [reflexivity|]. simpl. now rewrite IH. Qed.

Lemma digit_below_58 (x : byte) (k : N) :
  Base58.map_get (Base58._get_base58_decode_map Base58.BITCOIN_ALPHABET) x = Some k ->
  (k < 58)%N.
Proof.
  intros H. destruct x; vm_compute in H; try discriminate H;
    injection H as <-; reflexivity.
Qed.

Lemma decode_loop_bound (v : bytes) : forall d acc,
  Base58.decode_loop (Base58._get_base58_decode_map Base58.BITCOIN_ALPHABET)
    58 d v = ret acc ->
  (acc < (d + 1) * 58 ^ N.of_nat (length v))%N.
Proof.
  induction v as [|x v IH]; intros d acc; cbn [Base58.decode_loop].
  - intros [= <-]. cbn. lia.
  - destruct (Base58.map_get _ x) as [k|] eqn:Hk; [|discriminate].
    intros H. apply IH in H. apply digit_below_58 in Hk.
    cbn [length]. rewrite Nat2N.inj_succ, N.pow_succ_r'.
    assert (0 < 58 ^ N.of_nat (length v))%N by (apply N.neq_0_lt_0, N.pow_nonzero; lia).
    nia.
Qed.

Lemma byte_count_le (acc : N) (n : nat) :
  (acc < 58 ^ N.of_nat n)%N ->
  N.to_nat ((bit_length acc + 7) / 8) <= n.
Proof.
  intros H. destruct acc as [|p]; [cbn; lia|].
  assert (Hlt : (N.pos p < 2 ^ (8 * N.of_nat n))%N).
  { eapply N.lt_le_trans; [exact H|].
    rewrite N.pow_mul_r. apply N.pow_le_mono_l. cbn. lia. }
  apply N.log2_lt_pow2 in Hlt; [|lia].
  unfold bit_length. rewrite N.size_log2 by discriminate.
  assert (((N.succ (N.log2 (N.pos p)) + 7) / 8 < N.of_nat n + 1)%N).
  { apply N.Div0.div_lt_upper_bound. lia. }
  lia.
Qed.

Lemma b58decode_length (a : string) (data : bytes) :
  Base58.b58decode a = ret data -> length data <= String.length a.
Proof.
  rewrite b58decode_unfold.
  destruct (encode_ascii (rstrip str_isspace (list_ascii_of_string a)))
    as [e|b] eqn:Hb; cbn [bind]; [discriminate|].
  destruct (Base58.b58decode_int (lstrip Base58.is_first_symbol b))
    as [e|acc] eqn:Hacc; cbn [bind]; [discriminate|].
  rewrite int_to_bytes_fits. intros [= <-].
  rewrite length_rev, le_bytes_length.
  unfold Base58.b58decode_int in Hacc.
  rewrite (second_rstrip_is_noop _ b Hb) in Hacc.
  change (N.of_nat (length Base58.BITCOIN_ALPHABET)) with 58%N in Hacc.
  apply decode_loop_bound in Hacc. rewrite N.mul_1_l in Hacc.
  apply byte_count_le in Hacc.
  pose proof (lstrip_length Base58.is_first_symbol b) as Hle.
  apply encode_ascii_from_returns in Hb.
  assert (Hlen : length b <= String.length a).
  { rewrite Hb, length_map, <- chars_length. apply rstrip_length. }
  lia.
Qed.

(** X11: Base58 yields at most one byte per character, and a successful
    call needs 35 bytes or more: no address shorter than 35 characters is
    ever converted. *)
Theorem converted_address_length (a : string) (as_hex : bool) (v : value) :
  ss58_to_pub32 a as_hex = ret v ->
  exists data, Base58.b58decode a = ret data /\
               35 <= length data /\ length data <= String.length a.
Proof.
  intros H. destruct (decode_returns a as_hex v H) as (data & Hd & Hc).
  apply convert_returns in Hc as (f & Hf & Hsum & _).
  assert (H2 : length (checksum f) = 2) by (rewrite Hsum; apply recomputed_length).
  destruct (full_checksum data f Hf H2) as (Hreq & _ & _).
  exists data. split; [exact Hd|]. split; [|now apply b58decode_length].
  destruct data as [|first rest]; [discriminate|].
  unfold required_length in Hreq.
  destruct (Byte.to_N first <? 64)%N; lia.
Qed.

Lemma converted_address_length_witness :
  exists data, Base58.b58decode Known.ss58 = ret data /\
               35 <= length data /\ length data <= String.length Known.ss58.
Proof.
  apply (converted_address_length Known.ss58 true (Str Known.pub32_hex)).
  vm_compute. reflexivity.
Defined.

(** ** Amounts and the items of [stake_info] *)

Section Totals.
Context {number : Type} (zero : number) (add : number -> number -> number).

Lemma entries_of_item (info : Batch.stake_info number) (item : string * list (Batch.entry number)) :
  NoDup (Batch.hotkeys_of info) -> In item info ->
  Batch.entries_of info (fst item) = snd item.
Proof.
  unfold Batch.entries_of, Batch.hotkeys_of.
  induction info as [|[hk es] info IH]; intros Hnd Hin; [contradiction|].
  cbn [map fst] in Hnd. inversion Hnd as [|? ? Hfresh Hnd']; subst.
  cbn [find fst]. destruct Hin as [<-|Hin].
  - cbn [fst snd]. now rewrite String.eqb_refl.
  - destruct (String.eqb hk (fst item)) eqn:E.
    + apply String.eqb_eq in E. exfalso. apply Hfresh. rewrite E.
      now apply in_map.
    + now apply IH.
Qed.

(** X12: a dict has each hotkey once, so when the loop completes the i-th
    amount is the total over the entries of the i-th item of [stake_info]:
    amounts, keys and items stay aligned. *)
Theorem amounts_follow_items (info : Batch.stake_info number)
  (amounts : list number) (pub32_list : list (option value)) :
  NoDup (Batch.hotkeys_of info) ->
  Batch.convert_all zero add info = ret (amounts, pub32_list) ->
  amounts = map (fun item => Batch.total_value zero add (snd item)) info.
Proof.
  intros Hnd. unfold Batch.convert_all.
  destruct (loop_cases zero add info (Batch.hotkeys_of info) [] [])
    as [[Hex Hloop] | [Hall Hloop]]; rewrite Hloop; [discriminate|].
  cbn [app]. intros [= <- _]. unfold Batch.hotkeys_of at 1.
  rewrite map_map. apply map_ext_in. intros item Hin.
  now rewrite (entries_of_item info item Hnd Hin).
Qed.

End Totals.

Lemma amounts_follow_items_witness :
  [5%N; 0%N] =
  map (fun item => Batch.total_value 0%N N.add (snd item))
    [(Known.ss58, [Some 2%N; None; Some 3%N]); ("abc"%string, [])].
Proof.
  apply (amounts_follow_items 0%N N.add
           [(Known.ss58, [Some 2%N; None; Some 3%N]); ("abc"%string, [])]
           [5%N; 0%N] [Some (Str Known.pub32_hex); None]).
  - repeat constructor; simpl; intuition discriminate.
  - vm_compute. reflexivity.
Defined.
